(** * httpsig: the verification engine of verify.go

    A shallow embedding of [verifier.Verify] and of the algorithm verifiers
    of verify.go, together with the parts of Go's [strings], [encoding/base64],
    [net/http] and [crypto/subtle] packages that [Verify] calls.

    Go strings are byte strings: [string] (a list of 8-bit [ascii]) models
    them; a [[]byte] is a [list byte]; a [time.Time] is an instant on the
    integer line. *)

From Stdlib Require Import ZArith NArith List Bool Lia.
From Stdlib.Strings Require Import Ascii String Byte.
From stdpp Require Import base option list strings gmap.

Local Open Scope string_scope.
Local Open Scope Z_scope.

(** ** Go's [strings] package, for the calls made by verify.go *)

Module strings.

(** [len(s)] *)
Definition len (s : string) : Z := Z.of_nat (String.length s).

(** [s[m:]] and [s[:m]] for [0 <= m <= len(s)]. *)
Fixpoint drop (m : nat) (s : string) : string :=
  match m, s with
  | O, _ => s
  | S m', String _ s' => drop m' s'
  | S _, EmptyString => EmptyString
  end.

Fixpoint take (m : nat) (s : string) : string :=
  match m, s with
  | O, _ => EmptyString
  | S m', String c s' => String c (take m' s')
  | S _, EmptyString => EmptyString
  end.

Definition slice_from (s : string) (m : Z) : string := drop (Z.to_nat m) s.
Definition slice_to (s : string) (m : Z) : string := take (Z.to_nat m) s.

(** [strings.HasPrefix] *)
Fixpoint HasPrefix (s prefix : string) {struct prefix} : bool :=
  match prefix, s with
  | EmptyString, _ => true
  | String p prefix', String c s' =>
      if Ascii.eqb c p then HasPrefix s' prefix' else false
  | String _ _, EmptyString => false
  end.

(** [strings.Index]: the index of the first instance of [substr] in [s],
    or [-1] when there is none. *)
Fixpoint Index (s substr : string) : Z :=
  if HasPrefix s substr then 0
  else match s with
       | EmptyString => -1
       | String _ s' =>
           let m := Index s' substr in
           if m <? 0 then -1 else m + 1
       end.

(** [strings.Count] for a non-empty [substr]: the number of
    non-overlapping instances, found from the left.  The loop of the
    library consumes at least one byte per round, so [len(s)] rounds are
    enough. *)
Fixpoint Count_loop (rounds : nat) (s substr : string) : Z :=
  match rounds with
  | O => 0
  | S r =>
      let i := Index s substr in
      if i <? 0 then 0
      else 1 + Count_loop r (slice_from s (i + len substr)) substr
  end.

Definition Count (s substr : string) : Z :=
  Count_loop (String.length s) s substr.

(** The [for i < n] loop of [genSplit], entered with [n - 1 - i = k]. *)
Fixpoint genSplit_loop (k : nat) (s sep : string) : list string :=
  match k with
  | O => [s]
  | S k' =>
      let m := Index s sep in
      if m <? 0 then [s]
      else slice_to s m :: genSplit_loop k' (slice_from s (m + len sep)) sep
  end.

(** [explode], bytewise (the library cuts at UTF-8 sequences; verify.go
    never passes an empty separator). *)
Fixpoint explode (k : nat) (s : string) : list string :=
  match k, s with
  | O, _ => [s]
  | S _, EmptyString => []
  | S k', String c s' =>
      match s' with
      | EmptyString => [s]
      | _ => String c EmptyString :: explode k' s'
      end
  end.

(** [genSplit(s, sep, 0, n)] *)
Definition genSplit (s sep : string) (n : Z) : list string :=
  if n =? 0 then []
  else if String.eqb sep "" then
    explode (Z.to_nat ((if n <? 0 then len s else Z.min n (len s)) - 1)) s
  else
    let n := if n <? 0 then Count s sep + 1 else n in
    let n := if n >? len s + 1 then len s + 1 else n in
    genSplit_loop (Z.to_nat (n - 1)) s sep.

(** [strings.Split(s, sep)] and [strings.SplitN(s, sep, n)] *)
Definition Split (s sep : string) : list string := genSplit s sep (-1).
Definition SplitN (s sep : string) (n : Z) : list string := genSplit s sep n.

(** [strings.Trim(s, cutset)] for a cutset of ASCII bytes: all leading and
    trailing bytes contained in [cutset] are removed. *)
Fixpoint contains_byte (cutset : string) (c : ascii) : bool :=
  match cutset with
  | EmptyString => false
  | String d cutset' => Ascii.eqb c d || contains_byte cutset' c
  end.

Fixpoint TrimLeft (s cutset : string) : string :=
  match s with
  | EmptyString => EmptyString
  | String c s' => if contains_byte cutset c then TrimLeft s' cutset else s
  end.

Fixpoint TrimRight (s cutset : string) : string :=
  match s with
  | EmptyString => EmptyString
  | String c s' =>
      match TrimRight s' cutset with
      | EmptyString => if contains_byte cutset c then EmptyString
                       else String c EmptyString
      | t => String c t
      end
  end.

Definition Trim (s cutset : string) : string :=
  TrimLeft (TrimRight s cutset) cutset.

(** No byte of [s] is in [cutset]. *)
Fixpoint free_of (cutset s : string) : bool :=
  match s with
  | EmptyString => true
  | String c s' => negb (contains_byte cutset c) && free_of cutset s'
  end.

(** Every byte of [s] is in [cutset]. *)
Fixpoint only_of (cutset s : string) : bool :=
  match s with
  | EmptyString => true
  | String c s' => contains_byte cutset c && only_of cutset s'
  end.

(** [strings.Join(elems, sep)]: the elements with [sep] between them. *)
Fixpoint Join (elems : list string) (sep : string) : string :=
  match elems with
  | [] => EmptyString
  | [e] => e
  | e :: rest => e ++ sep ++ Join rest sep
  end.

End strings.

(** ** Go's [encoding/base64]: [StdEncoding.DecodeString] *)

Module base64.

(** [decodeMap] of the standard alphabet: the 6-bit value of a byte, when
    the byte is in the alphabet ([0xff] in the library's table otherwise). *)
Definition decodeMap (c : ascii) : option N :=
  let n := N_of_ascii c in
  (if (65 <=? n) && (n <=? 90) then Some (n - 65)          (* A-Z *)
   else if (97 <=? n) && (n <=? 122) then Some (n - 71)    (* a-z *)
   else if (48 <=? n) && (n <=? 57) then Some (n + 4)      (* 0-9 *)
   else if n =? 43 then Some 62                            (* + *)
   else if n =? 47 then Some 63                            (* / *)
   else None)%N.

Definition is_newline (c : ascii) : bool :=
  (let n := N_of_ascii c in (n =? 10) || (n =? 13))%N.

Definition padChar : ascii := "="%char.

(** The loops [for si < len(src) && (src[si] == '\n' || src[si] == '\r')]. *)
Fixpoint skip_newlines (src : string) : string :=
  match src with
  | String c src' => if is_newline c then skip_newlines src' else src
  | EmptyString => EmptyString
  end.

Definition byte_of (n : N) : byte := byte_of_ascii (ascii_of_N n).

(** The last step of [decodeQuantum]: the 6-bit values read so far (at
    most four, missing ones are zero) are packed into 24 bits, of which
    the first [dlen - 1] bytes are kept.  [StdEncoding] is not strict:
    left-over bits are dropped. *)
Definition quantum (dbuf : list N) : list byte :=
  let d := fun j => nth j dbuf 0%N in
  let val := N.lor (N.lor (N.shiftl (d 0%nat) 18) (N.shiftl (d 1%nat) 12))
                   (N.lor (N.shiftl (d 2%nat) 6) (d 3%nat)) in
  take (Nat.pred (List.length dbuf))
       [byte_of (N.shiftr val 16); byte_of (N.shiftr val 8); byte_of val].

(** [Decode], one input byte per step; [dbuf] holds the values of the
    quantum being read, [dst] what is decoded already.  [None] is a
    [CorruptInputError]. *)
Fixpoint decode (src : string) (dbuf : list N) (dst : list byte)
  : option (list byte) :=
  match src with
  | EmptyString =>
      match dbuf with
      | [] => Some dst
      | _ => None                       (* input ends inside a quantum *)
      end
  | String c src' =>
      match decodeMap c with
      | Some v =>
          let dbuf' := (dbuf ++ [v])%list in
          if Nat.eqb (List.length dbuf') 4
          then decode src' [] (dst ++ quantum dbuf')%list
          else decode src' dbuf' dst
      | None =>
          if is_newline c then decode src' dbuf dst
          else if negb (Ascii.eqb c padChar) then None
          else match List.length dbuf with
               | 2%nat =>
                   match skip_newlines src' with
                   | String c2 rest =>
                       if Ascii.eqb c2 padChar
                       then match skip_newlines rest with
                            | EmptyString => Some (dst ++ quantum dbuf)%list
                            | _ => None  (* trailing garbage *)
                            end
                       else None         (* incorrect padding *)
                   | EmptyString => None (* not enough padding *)
                   end
               | 3%nat =>
                   match skip_newlines src' with
                   | EmptyString => Some (dst ++ quantum dbuf)%list
                   | _ => None           (* trailing garbage *)
                   end
               | _ => None               (* incorrect padding *)
               end
      end
  end.

(** [base64.StdEncoding.DecodeString(s)]: the bytes, or [None] for a
    non-nil error. *)
Definition DecodeString (s : string) : option (list byte) := decode s [] [].

End base64.

(** ** Go's [crypto/subtle] and [crypto/hmac.Equal] *)

Module subtle.

(** [ConstantTimeByteEq(x, y uint8) int]:
    [int((uint32(x^y) - 1) >> 31)], the subtraction wrapping at 32 bits. *)
Definition ConstantTimeByteEq (x y : Z) : Z :=
  Z.shiftr ((Z.lxor x y - 1) mod 2 ^ 32) 31.

(** The loop [for i := 0; i < len(x); i++ { v |= x[i] ^ y[i] }]. *)
Fixpoint fold_xor (v : Z) (x y : list byte) : Z :=
  match x, y with
  | a :: x', b :: y' =>
      fold_xor (Z.lor v (Z.lxor (Z.of_N (Byte.to_N a)) (Z.of_N (Byte.to_N b))))
               x' y'
  | _, _ => v
  end.

(** The values of a [uint8]. *)
Definition is_uint8 (v : Z) : Prop := 0 <= v < 2 ^ 8.

(** [ConstantTimeCompare(x, y []byte) int] *)
Definition ConstantTimeCompare (x y : list byte) : Z :=
  if negb (Nat.eqb (List.length x) (List.length y)) then 0
  else ConstantTimeByteEq (fold_xor 0 x y) 0.

End subtle.

Module hmac.
(** [hmac.Equal(mac1, mac2)] *)
Definition Equal (mac1 mac2 : list byte) : bool :=
  subtle.ConstantTimeCompare mac1 mac2 =? 1.
End hmac.

(** ** Go's [time] and [net/http], as far as [Verify] uses them *)

Module time.
(** A [time.Time] instant. *)
Definition Time : Set := Z.
(** [t.After(u)] *)
Definition After (t u : Time) : bool := u <? t.
End time.

Module http.
(** [Header.Get(key)]: the first value stored under [key], or the empty
    string.  The two keys [Verify] asks for are in canonical MIME form
    already, so the canonicalisation of [key] is the identity on them. *)
Definition Get (h : gmap string (list string)) (key : string) : string :=
  match h !! key with
  | Some (v :: _) => v
  | _ => ""
  end.

(** The header has no value under [key], or its first value is empty. *)
Definition noValue (h : gmap string (list string)) (key : string) : Prop :=
  h !! key = None \/ h !! key = Some [] \/ exists vs, h !! key = Some ("" :: vs).
End http.

Module url.
Record URL : Set := mkURL { Path : string; RawQuery : string }.
End url.

Module httpsig.

(** ** Errors *)

(** The six error values declared by verify.go, made by [errors.New]:
    they wrap nothing.  [otherError] stands for any other error value that
    wraps nothing, [wrapError] for an error value that wraps another (its
    [Unwrap] method returns [err], as for [fmt.Errorf] with [%w]). *)
Inductive error : Set :=
| notSignedError
| malformedSignatureError
| unknownKeyError
| algMismatchError
| signatureExpiredError
| invalidSignatureError
| otherError (msg : string)
| wrapError (msg : string) (err : error).

#[global] Instance error_eq_dec : EqDecision error.
Proof. solve_decision. Defined.

(** What a call does: it returns an [error] ([None] is [nil]), or it panics
    (a nil function is called). *)
Inductive outcome : Set :=
| Return (err : option error)
| Panic.

(** [errors.Is(err, target)] for a non-nil [err]: [err] is [target], or it
    wraps an error of which this holds. *)
Fixpoint error_Is (err target : error) : bool :=
  bool_decide (err = target) ||
  match err with
  | wrapError _ inner => error_Is inner target
  | _ => false
  end.

(** [errors.Is(err, target)]; a nil [err] is no error. *)
Definition errors_Is (err : option error) (target : error) : bool :=
  match err with
  | Some e => error_Is e target
  | None => false
  end.

Definition IsNotSignedError err := errors_Is err notSignedError.
Definition IsMalformedSignatureError err := errors_Is err malformedSignatureError.
Definition IsUnknownKeyError err := errors_Is err unknownKeyError.
Definition IsAlgMismatchError err := errors_Is err algMismatchError.
Definition IsSignatureExpiredError err := errors_Is err signatureExpiredError.
Definition IsInvalidSignatureError err := errors_Is err invalidSignatureError.

(** ** The data of a verification *)

(** An [io.Writer] that is a [hash.Hash]: its state is the bytes written to
    it so far, in order. *)
Definition Writer : Set := list byte.
Definition Write (w : Writer) (p : list byte) : Writer := (w ++ p)%list.

(** [verImpl]: the sink [w], and the closure [verify], which reads the sink
    it was built with; the closure is given the sink's current state.  Both
    fields are set, as in every instance the constructors of verify.go
    make; an instance with a nil field, on which [Verify] would panic, is
    not among the values of this type. *)
Module verImpl.
Record t : Set := mk { w : Writer; verify : Writer -> list byte -> option error }.
End verImpl.

(** [verHolder]; the factory is a Go function value, so it may be nil. *)
Module verHolder.
Record t : Set := mk { alg : string; verifier : option (unit -> verImpl.t) }.
(** The zero value, which a map yields for a missing key. *)
Definition zero : t := mk "" None.
End verHolder.

(** [verifier]; [nowFunc] is given the wall clock, so that [time.Now] itself
    is [fun clock => clock]. *)
Module verifier.
Record t : Set := mk { keys : gmap string verHolder.t; nowFunc : time.Time -> time.Time }.
End verifier.

(** Modelled from the spec: the struct [signatureParams] is declared in
    another file of the package.  The fields are those [Verify] reads, as
    the data model lists them: the key id, the optional algorithm label
    (empty when absent), the covered components in order, and the optional
    expiry (a nil pointer when absent). *)
Module signatureParams.
Record t : Set := mk {
  keyID : string;
  alg : string;
  items : list string;
  expires : option time.Time
}.
End signatureParams.

(** Modelled from the spec: the struct [message] is declared in another
    file of the package.  It is the signable message of the data model: a
    method, a URL and the header collection, an [http.Header], which maps a
    canonical name to its values in order. *)
Module message.
Record t : Set := mk {
  Method : string;
  URL : url.URL;
  Header : gmap string (list string)
}.
End message.

(** ** [Verify] *)

(** How the loop over [paramParts] ends. *)
Inductive selection : Set :=
| SelError (e : error)
| SelNone
| SelFound (sigID : string) (params : signatureParams.t).

Section Verify.

(** Functions of the package that verify.go calls and that are defined in
    other files of the package; [Verify] is stated for any such functions.
    The parser's error value is dropped by [Verify], so [None] stands for
    any failure; a canonicaliser either fails or appends bytes to the
    buffer it is given; [canonicalizeSignatureParams] writes bytes to the
    sink. *)
Variable parseSignatureInput : string -> option signatureParams.t.
Variable canonicalizeRequestTarget : string -> url.URL -> error + list byte.
Variable canonicalizeHeader : string -> gmap string (list string) -> error + list byte.
Variable canonicalizeSignatureParams : signatureParams.t -> list byte.

(** [for _, p := range paramParts { ... }] *)
Fixpoint selectParams (keys : gmap string verHolder.t) (paramParts : list string)
  : selection :=
  match paramParts with
  | [] => SelNone
  | p :: rest =>
      match strings.SplitN p "=" 2 with
      | [id; blob] =>
          match parseSignatureInput blob with
          | None => SelError malformedSignatureError
          | Some candidate =>
              match keys !! signatureParams.keyID candidate with
              | Some _ => SelFound id candidate
              | None => selectParams keys rest
              end
          end
      | _ => SelError malformedSignatureError
      end
  end.

(** [for _, s := range sigParts { ... }]: the value of [signature] after
    the loop, or the error returned from inside it. *)
Fixpoint findSignature (sigParts : list string) (sigID : string) : error + string :=
  match sigParts with
  | [] => inr ""
  | s :: rest =>
      match strings.SplitN s "=" 2 with
      | [id; value] =>
          if String.eqb id sigID then inr (strings.Trim value ":")
          else findSignature rest sigID
      | _ => inl malformedSignatureError
      end
  end.

(** [for _, h := range params.items { ... }], from buffer [b]. *)
Fixpoint canonicalize (msg : message.t) (items : list string) (b : list byte)
  : error + list byte :=
  match items with
  | [] => inr b
  | h :: rest =>
      if String.eqb h "@request-target" then
        match canonicalizeRequestTarget (message.Method msg) (message.URL msg) with
        | inl err => inl err
        | inr out => canonicalize msg rest (b ++ out)%list
        end
      else
        match canonicalizeHeader h (message.Header msg) with
        | inl err => inl err
        | inr out => canonicalize msg rest (b ++ out)%list
        end
  end.

(** [ver.alg != "" && params.alg != "" && ver.alg != params.alg] *)
Definition algMismatch (ver : verHolder.t) (params : signatureParams.t) : bool :=
  negb (String.eqb (verHolder.alg ver) "")
  && negb (String.eqb (signatureParams.alg params) "")
  && negb (String.eqb (verHolder.alg ver) (signatureParams.alg params)).

(** [params.expires != nil && params.expires.After(time.Now())] *)
Definition expiryFails (params : signatureParams.t) (clock : time.Time) : bool :=
  match signatureParams.expires params with
  | Some e => time.After e clock
  | None => false
  end.

(** From [verifier := ver.verifier()] to the end of [Verify]. *)
Definition checkSignature (ver : verHolder.t) (params : signatureParams.t)
    (sig : list byte) (clock : time.Time) (msg : message.t) : outcome :=
  match verHolder.verifier ver with
  | None => Panic
  | Some new =>
      let verifier := new tt in
      match canonicalize msg (signatureParams.items params) [] with
      | inl err => Return (Some err)
      | inr b =>
          let w := Write (verImpl.w verifier) b in
          let w := Write w (canonicalizeSignatureParams params) in
          match verImpl.verify verifier w sig with
          | Some _ => Return (Some invalidSignatureError)
          | None =>
              if expiryFails params clock
              then Return (Some signatureExpiredError)
              else Return None
          end
      end
  end.

(** From [ver := v.keys[params.keyID]] on. *)
Definition checkSelected (v : verifier.t) (params : signatureParams.t)
    (signature : string) (clock : time.Time) (msg : message.t) : outcome :=
  let ver := default verHolder.zero
               (verifier.keys v !! signatureParams.keyID params) in
  if algMismatch ver params then Return (Some algMismatchError)
  else match base64.DecodeString signature with
       | None => Return (Some malformedSignatureError)
       | Some sig => checkSignature ver params sig clock msg
       end.

(** From the loop over [sigParts] on. *)
Definition checkEntry (v : verifier.t) (sigParts : list string)
    (sigID : string) (params : signatureParams.t)
    (clock : time.Time) (msg : message.t) : outcome :=
  match findSignature sigParts sigID with
  | inl e => Return (Some e)
  | inr signature =>
      if String.eqb signature "" then Return (Some malformedSignatureError)
      else checkSelected v params signature clock msg
  end.

(** [func (v *verifier) Verify(msg *message) error]; [clock] is what
    [time.Now()] reads during the call. *)
Definition Verify (v : verifier.t) (clock : time.Time) (msg : message.t) : outcome :=
  let sigHdr := http.Get (message.Header msg) "Signature" in
  if String.eqb sigHdr "" then Return (Some notSignedError) else
  let paramHdr := http.Get (message.Header msg) "Signature-Input" in
  if String.eqb paramHdr "" then Return (Some notSignedError) else
  let sigParts := strings.Split sigHdr ", " in
  let paramParts := strings.Split paramHdr ", " in
  if negb (Nat.eqb (List.length sigParts) (List.length paramParts))
  then Return (Some malformedSignatureError) else
  match selectParams (verifier.keys v) paramParts with
  | SelError e => Return (Some e)
  | SelNone => Return (Some unknownKeyError)
  | SelFound sigID params => checkEntry v sigParts sigID params clock msg
  end.

(** *** The states of a verification, for the statements below *)

Definition sigHdr (msg : message.t) : string :=
  http.Get (message.Header msg) "Signature".
Definition paramHdr (msg : message.t) : string :=
  http.Get (message.Header msg) "Signature-Input".
Definition sigParts (msg : message.t) : list string :=
  strings.Split (sigHdr msg) ", ".
Definition paramParts (msg : message.t) : list string :=
  strings.Split (paramHdr msg) ", ".

(** Both headers are there and their lists are equally long. *)
Definition HeadersExtracted (msg : message.t) : Prop :=
  (sigHdr msg <> "") /\ (paramHdr msg <> "") /\
  List.length (sigParts msg) = List.length (paramParts msg).

(** The loop over [paramParts] has chosen the entry [sigID], [params]. *)
Definition KeyMatched (v : verifier.t) (msg : message.t)
    (sigID : string) (params : signatureParams.t) : Prop :=
  HeadersExtracted msg /\
  selectParams (verifier.keys v) (paramParts msg) = SelFound sigID params.

(** ... and [signature] is the non-empty text found for it. *)
Definition SignatureFound (v : verifier.t) (msg : message.t)
    (sigID : string) (params : signatureParams.t) (signature : string) : Prop :=
  KeyMatched v msg sigID params /\
  (findSignature (sigParts msg) sigID = inr signature) /\ (signature <> "").

(** ... the algorithm labels do not mismatch, the text decodes to [sig],
    the components canonicalise, and the instance's [verify] answers [r]. *)
Definition CryptoChecked (v : verifier.t) (msg : message.t)
    (params : signatureParams.t) (r : option error) : Prop :=
  exists sigID signature ver sig new b,
    SignatureFound v msg sigID params signature /\
    verifier.keys v !! signatureParams.keyID params = Some ver /\
    algMismatch ver params = false /\
    base64.DecodeString signature = Some sig /\
    verHolder.verifier ver = Some new /\
    canonicalize msg (signatureParams.items params) [] = inr b /\
    verImpl.verify (new tt)
      (Write (Write (verImpl.w (new tt)) b) (canonicalizeSignatureParams params))
      sig = r.

(** An entry [id=blob] of Signature-Input whose blob parses to [e.2]. *)
Definition parsesTo (p : string) (e : string * signatureParams.t) : Prop :=
  exists blob, strings.SplitN p "=" 2 = [e.1; blob] /\
               parseSignatureInput blob = Some e.2.

(** An entry that has no [=], or whose blob does not parse. *)
Definition unparsable (p : string) : Prop :=
  forall id blob, strings.SplitN p "=" 2 = [id; blob] ->
                  parseSignatureInput blob = None.

(** The canonicalisers never fail with the error [e]. *)
Definition canonNever (e : error) : Prop :=
  (forall method u, canonicalizeRequestTarget method u <> inl e) /\
  (forall name hdr, canonicalizeHeader name hdr <> inl e).

(** The canonicalisers never fail with an error that [errors.Is] takes for
    [target]. *)
Definition canonNeverIs (target : error) : Prop :=
  (forall method u e,
      canonicalizeRequestTarget method u = inl e -> error_Is e target = false) /\
  (forall name hdr e,
      canonicalizeHeader name hdr = inl e -> error_Is e target = false).

(** The body of the loop over [params.items]: what one covered component
    adds to the buffer, or the error it stops the loop with. *)
Definition canonicalizeItem (msg : message.t) (h : string) : error + list byte :=
  if String.eqb h "@request-target"
  then canonicalizeRequestTarget (message.Method msg) (message.URL msg)
  else canonicalizeHeader h (message.Header msg).

End Verify.

(** The key id of a parsed entry is, or is not, in the registry. *)
Definition registered (keys : gmap string verHolder.t)
    (e : string * signatureParams.t) : Prop :=
  is_Some (keys !! signatureParams.keyID e.2).
Definition unregistered (keys : gmap string verHolder.t)
    (e : string * signatureParams.t) : Prop :=
  keys !! signatureParams.keyID e.2 = None.

(** ** The algorithm verifiers *)

Section Algorithms.

(** The primitives of Go's [crypto] packages: key types, digests, the MAC
    of a message under a key, and the two signature checks. *)
Variables rsa_PublicKey ecdsa_PublicKey : Type.
Variables sha512_Sum sha256_Sum : list byte -> list byte.
Variable hmac_sha256 : list byte -> list byte -> list byte.
Variable rsa_VerifyPSS : rsa_PublicKey -> list byte -> list byte -> option error.
Variable ecdsa_VerifyASN1 : ecdsa_PublicKey -> list byte -> list byte -> bool.

(** [verifyRsaPssSha512(pk)]: [h.Sum(nil)] is the digest of what was
    written to [h]. *)
Definition verifyRsaPssSha512 (pk : rsa_PublicKey) : verHolder.t :=
  verHolder.mk "rsa-pss-sha512"
    (Some (fun _ =>
       verImpl.mk []
         (fun h s => let b := sha512_Sum h in rsa_VerifyPSS pk b s))).

(** [verifyEccP256(pk)] *)
Definition verifyEccP256 (pk : ecdsa_PublicKey) : verHolder.t :=
  verHolder.mk "ecdsa-p256-sha256"
    (Some (fun _ =>
       verImpl.mk []
         (fun h s =>
            let b := sha256_Sum h in
            if negb (ecdsa_VerifyASN1 pk b s)
            then Some invalidSignatureError
            else None))).

(** [verifyHmacSha256(secret)]: [h] starts empty, [h.Sum(nil)] is the MAC
    of what was written to [h]. *)
Definition verifyHmacSha256 (secret : list byte) : verHolder.t :=
  verHolder.mk "hmac-sha256"
    (Some (fun _ =>
       verImpl.mk []
         (fun h in_ =>
            if negb (hmac.Equal in_ (hmac_sha256 secret h))
            then Some invalidSignatureError
            else None))).

End Algorithms.

End httpsig.

Import httpsig.

(** ** A small instance to run [Verify] on

    Stand-ins for the functions verify.go calls and does not define, and for
    the MAC, chosen so that [Verify] can be evaluated: a parser that knows a
    handful of parameter blobs, canonicalisers that write [name: value], and
    a MAC that prepends the secret to the message. *)

Module Sample.

Definition bytes (s : string) : list byte :=
  List.map byte_of_ascii (list_ascii_of_string s).

Definition params (keyid alg : string) (expires : option time.Time)
  : signatureParams.t :=
  signatureParams.mk keyid alg ["Date"] expires.

Definition parseSignatureInput (blob : string) : option signatureParams.t :=
  if String.eqb blob "(Date);keyid=key1" then
    Some (params "key1" "" None)
  else if String.eqb blob "(Date);keyid=key2" then
    Some (params "key2" "" None)
  else if String.eqb blob "(Date);keyid=key1;alg=rsa-pss-sha512" then
    Some (params "key1" "rsa-pss-sha512" None)
  else if String.eqb blob "(Date);keyid=key1;expires=100" then
    Some (params "key1" "" (Some 100))
  else None.

Definition canonicalizeRequestTarget (method : string) (u : url.URL)
  : error + list byte :=
  inr (bytes (method ++ " " ++ url.Path u)).

Definition canonicalizeHeader (name : string) (hdr : gmap string (list string))
  : error + list byte :=
  match hdr !! name with
  | Some (v :: _) => inr (bytes (name ++ ": " ++ v))
  | _ => inl malformedSignatureError
  end.

Definition canonicalizeSignatureParams (p : signatureParams.t) : list byte :=
  bytes (";keyid=" ++ signatureParams.keyID p).

Definition mac (secret msg : list byte) : list byte := (secret ++ msg)%list.

Definition Verify : verifier.t -> time.Time -> message.t -> outcome :=
  Verify parseSignatureInput canonicalizeRequestTarget canonicalizeHeader
         canonicalizeSignatureParams.

(** A registry with the one key [key1], an HMAC key with secret [s]. *)
Definition holder : verHolder.t := verifyHmacSha256 mac (bytes "s").
Definition registry : gmap string verHolder.t := {[ "key1" := holder ]}.

Definition v : verifier.t := verifier.mk registry (fun clock => clock).

(** [GET /foo] with [Date: X] and those of the two signature headers that
    are given. *)
Definition set (key : string) (value : option string)
    (h : gmap string (list string)) : gmap string (list string) :=
  match value with
  | Some x => <[ key := [x] ]> h
  | None => h
  end.

Definition request (sigInput sig : option string) : message.t :=
  message.mk "GET" (url.mkURL "/foo" "")
    (set "Signature-Input" sigInput (set "Signature" sig {[ "Date" := ["X"] ]})).

(** The MAC of the canonical bytes [Date: X;keyid=key1] under [s], and a
    signature that is not that MAC, in base64. *)
Definition good : string := "c0RhdGU6IFg7a2V5aWQ9a2V5MQ==".
Definition bad : string := "d3Jvbmc=".

(** Requests.  [signed] carries one entry, signed with [key1]. *)
Definition signed : message.t :=
  request (Some "sig1=(Date);keyid=key1") (Some ("sig1=:" ++ good ++ ":")).

(** The same with [expires] at instant 100, and the signature text [sig]. *)
Definition expiring (sig : string) : message.t :=
  request (Some "sig1=(Date);keyid=key1;expires=100")
          (Some ("sig1=:" ++ sig ++ ":")).

(** Only one of the two headers. *)
Definition inputOnly : message.t :=
  request (Some "sig1=(Date);keyid=key1") None.
Definition signatureOnly : message.t :=
  request None (Some ("sig1=:" ++ good ++ ":")).

(** Headers of different lengths. *)
Definition unequal : message.t :=
  request (Some "sig1=(Date);keyid=key1")
          (Some ("sig1=:" ++ good ++ ":, sig2=:AAAA:")).

(** Two entries, the one of the unregistered [key2] first, or last. *)
Definition unregisteredFirst : message.t :=
  request (Some "sig2=(Date);keyid=key2, sig1=(Date);keyid=key1")
          (Some ("sig2=:AAAA:, sig1=:" ++ good ++ ":")).
Definition unregisteredLast : message.t :=
  request (Some "sig1=(Date);keyid=key1, sig2=(Date);keyid=key2")
          (Some ("sig1=:" ++ good ++ ":, sig2=:AAAA:")).
Definition unregisteredOnly : message.t :=
  request (Some "sig2=(Date);keyid=key2") (Some "sig2=:AAAA:").

(** An entry that does not parse, after the registered one, or before. *)
Definition malformedLast : message.t :=
  request (Some "sig1=(Date);keyid=key1, sig2=%%%")
          (Some ("sig1=:" ++ good ++ ":, sig2=:AAAA:")).
Definition malformedFirst : message.t :=
  request (Some "sig2=%%%, sig1=(Date);keyid=key1")
          (Some ("sig2=:AAAA:, sig1=:" ++ good ++ ":")).

(** A declared algorithm that is not the key's, and a signature text that
    is not base64. *)
Definition wrongAlg : message.t :=
  request (Some "sig1=(Date);keyid=key1;alg=rsa-pss-sha512") (Some "sig1=:!!!:").
Definition notBase64 : message.t :=
  request (Some "sig1=(Date);keyid=key1") (Some "sig1=:!!!:").
Definition noSuchId : message.t :=
  request (Some "sig1=(Date);keyid=key1") (Some "sig9=:AAAA:").

(** A Signature entry without [=] before the one of the selected id; a
    value of colons only; a Signature header with an empty value. *)
Definition noEquals : message.t :=
  request (Some "sig1=(Date);keyid=key1, sig2=%%%")
          (Some ("garbage, sig1=:" ++ good ++ ":")).
Definition onlyColons : message.t :=
  request (Some "sig1=(Date);keyid=key1;alg=rsa-pss-sha512") (Some "sig1=:::").
Definition emptySignature : message.t :=
  request (Some "sig1=(Date);keyid=key1") (Some "").

(** [signed], sent as [POST /bar]. *)
Definition posted : message.t :=
  message.mk "POST" (url.mkURL "/bar" "q=1") (message.Header signed).

(** A header canonicaliser that finds no header. *)
Definition failingHeader (name : string) (hdr : gmap string (list string))
  : error + list byte :=
  inl (otherError "header not found").

(** Stand-ins for the RSA and ECDSA checks: digests are the messages
    themselves, and a signature is good when it is the key followed by the
    digest. *)
Definition digest (m : list byte) : list byte := m.
Definition rsaVerify (pk b s : list byte) : option error :=
  if hmac.Equal s (pk ++ b) then None
  else Some (otherError "crypto/rsa: verification error").
Definition ecdsaVerify (pk b s : list byte) : bool :=
  hmac.Equal s (pk ++ b).

Definition rsaHolder : verHolder.t :=
  verifyRsaPssSha512 (list byte) digest rsaVerify (bytes "s").
Definition ecdsaHolder : verHolder.t :=
  verifyEccP256 (list byte) digest ecdsaVerify (bytes "s").
(** A registry in which [key2] is registered as well, with the secret
    [t]. *)
Definition holder2 : verHolder.t := verifyHmacSha256 mac (bytes "t").
Definition vBoth : verifier.t :=
  verifier.mk (<[ "key2" := holder2 ]> registry) (fun clock => clock).

Definition vRsa : verifier.t :=
  verifier.mk {[ "key1" := rsaHolder ]} (fun clock => clock).
Definition vEcdsa : verifier.t :=
  verifier.mk {[ "key1" := ecdsaHolder ]} (fun clock => clock).

End Sample.


(** * Facts about the library models *)

Module strings_facts.
Import strings.

Lemma append_cons (c : ascii) (a b : string) :
  String c a ++ b = String c (a ++ b).
Proof. reflexivity. Qed.

Lemma append_nil_l (s : string) : "" ++ s = s.
Proof. reflexivity. Qed.

Lemma drop_append (a b : string) : drop (String.length a) (a ++ b) = b.
Proof. induction a as [|c a IH]; simpl; auto. Qed.

Lemma drop_append_add (a b : string) (n : nat) :
  drop (String.length a + n) (a ++ b) = drop n b.
Proof. induction a as [|c a IH]; simpl; auto. Qed.

Lemma take_append (a b : string) : take (String.length a) (a ++ b) = a.
Proof. induction a as [|c a IH]; simpl; [destruct b|]; congruence. Qed.

Lemma length_drop (m : nat) (s : string) :
  String.length (drop m s) = (String.length s - m)%nat.
Proof. revert s; induction m as [|m IH]; intros [|c s]; simpl; auto. Qed.

Lemma HasPrefix_append (p t : string) : HasPrefix (p ++ t) p = true.
Proof.
  induction p as [|c p IH]; simpl.
  - now destruct t.
  - now rewrite Ascii.eqb_refl.
Qed.

Lemma HasPrefix_inv (s p : string) :
  HasPrefix s p = true -> exists t, s = p ++ t.
Proof.
  revert s; induction p as [|c p IH]; intros s H; simpl in *.
  - now exists s.
  - destruct s as [|d s]; simpl in H; [discriminate|].
    destruct (Ascii.eqb_spec d c) as [->|]; [|discriminate].
    destruct (IH _ H) as [t ->]. now exists t.
Qed.

(** [Index] answers [-1] or a position inside the string. *)
Lemma Index_range (s sep : string) :
  Index s sep = -1 \/ 0 <= Index s sep <= len s.
Proof.
  unfold len.
  induction s as [|c s IH]; cbn [Index String.length];
    destruct (HasPrefix _ sep); try lia.
  destruct (Z.ltb_spec (Index s sep) 0); lia.
Qed.

(** When [Index] answers a position, an instance of [sep] starts there. *)
Lemma Index_found (s sep : string) :
  0 <= Index s sep ->
  s = slice_to s (Index s sep) ++ sep ++ slice_from s (Index s sep + len sep).
Proof.
  unfold slice_to, slice_from, len.
  induction s as [|c s IH]; cbn [Index]; intros H.
  - destruct (HasPrefix "" sep) eqn:E; [|lia].
    apply HasPrefix_inv in E as [t E]. rewrite E at 1 3.
    rewrite Z.add_0_l, Nat2Z.id, drop_append. reflexivity.
  - destruct (HasPrefix (String c s) sep) eqn:E.
    + apply HasPrefix_inv in E as [t E]. rewrite E at 1 3.
      rewrite Z.add_0_l, Nat2Z.id, drop_append. reflexivity.
    + destruct (Z.ltb_spec (Index s sep) 0) as [|Hm]; [lia|].
      replace (Z.to_nat (Index s sep + 1)) with (S (Z.to_nat (Index s sep))) by lia.
      replace (Z.to_nat (Index s sep + 1 + Z.of_nat (String.length sep)))
        with (S (Z.to_nat (Index s sep + Z.of_nat (String.length sep)))) by lia.
      cbn [take drop]. rewrite append_cons. f_equal. apply IH, Hm.
Qed.

(** A string with no instance of [sep] has no index for it. *)
Lemma Index_absent (s sep : string) :
  (forall pre post, s <> pre ++ sep ++ post) -> Index s sep = -1.
Proof.
  intros H. destruct (Index_range s sep) as [|[H0 _]]; [assumption|].
  exfalso. eapply H, Index_found, H0.
Qed.

Lemma Index_prefix (s sep : string) : HasPrefix s sep = true -> Index s sep = 0.
Proof. intros H. destruct s; cbn [Index]; now rewrite H. Qed.

(** A string with an instance of [sep] has an index for it. *)
Lemma Index_present (pre sep post : string) : 0 <= Index (pre ++ sep ++ post) sep.
Proof.
  induction pre as [|c pre IH].
  - rewrite append_nil_l, Index_prefix by apply HasPrefix_append. lia.
  - rewrite append_cons. cbn [Index].
    destruct (HasPrefix _ sep); [lia|].
    destruct (Z.ltb_spec (Index (pre ++ sep ++ post) sep) 0); lia.
Qed.

Lemma Index_empty (sep : string) : sep <> "" -> Index "" sep = -1.
Proof. now destruct sep. Qed.

Lemma len_pos (sep : string) : sep <> "" -> 0 < len sep.
Proof. unfold len. destruct sep; [congruence|]. cbn [String.length]. lia. Qed.

Lemma Count_loop_range (r : nat) (s sep : string) :
  0 <= Count_loop r s sep <= Z.of_nat r.
Proof.
  revert s; induction r as [|r IH]; intros s; cbn [Count_loop]; [lia|].
  destruct (Z.ltb_spec (Index s sep) 0); [lia|].
  specialize (IH (slice_from s (Index s sep + len sep))). lia.
Qed.

(** Once the loop of [genSplit] may run as often as [Count] says, running
    it more often changes nothing. *)
Lemma genSplit_loop_enough (r : nat) :
  forall (s sep : string) (k : nat),
    sep <> "" -> (String.length s <= r)%nat ->
    (Z.to_nat (Count_loop r s sep) <= k)%nat ->
    genSplit_loop k s sep = genSplit_loop (Z.to_nat (Count_loop r s sep)) s sep.
Proof.
  induction r as [|r IH]; intros s sep k Hsep Hlen Hk.
  - destruct s; [|cbn [String.length] in Hlen; lia].
    destruct k; cbn [Count_loop genSplit_loop Z.to_nat]; [reflexivity|].
    now rewrite (Index_empty _ Hsep).
  - cbn [Count_loop] in *.
    destruct (Z.ltb_spec (Index s sep) 0) as [Hi|Hi].
    + apply Z.ltb_lt in Hi.
      destruct k; cbn [genSplit_loop Z.to_nat]; [reflexivity|now rewrite Hi].
    + set (s' := slice_from s (Index s sep + len sep)) in *.
      pose proof (Count_loop_range r s' sep) as Hc.
      pose proof (len_pos _ Hsep) as Hp.
      assert (Hlen' : (String.length s' <= r)%nat).
      { unfold s', slice_from. rewrite length_drop. lia. }
      replace (Z.to_nat (1 + Count_loop r s' sep))
        with (S (Z.to_nat (Count_loop r s' sep))) in * by lia.
      destruct k as [|k]; [lia|].
      cbn [genSplit_loop]. apply Z.ltb_ge in Hi. rewrite Hi. fold s'.
      f_equal. apply IH; [assumption|assumption|lia].
Qed.

Lemma Split_loop (s sep : string) (k : nat) :
  sep <> "" -> (Z.to_nat (Count s sep) <= k)%nat ->
  Split s sep = genSplit_loop k s sep.
Proof.
  intros Hsep Hk. unfold Split, genSplit, Count in *.
  pose proof (Count_loop_range (String.length s) s sep) as Hc.
  destruct (String.eqb_spec sep ""); [contradiction|].
  cbn [Z.eqb Z.ltb Z.compare].
  destruct (Z.gtb_spec (Count_loop (String.length s) s sep + 1) (len s + 1));
    [unfold len in *; lia|].
  replace (Count_loop (String.length s) s sep + 1 - 1)
    with (Count_loop (String.length s) s sep) by lia.
  symmetry. now apply genSplit_loop_enough.
Qed.

(** [Split] cuts at the first instance of the separator and goes on with
    what follows it. *)
Lemma Split_unfold (s sep : string) :
  sep <> "" ->
  Split s sep =
    if Index s sep <? 0 then [s]
    else slice_to s (Index s sep)
           :: Split (slice_from s (Index s sep + len sep)) sep.
Proof.
  intros Hsep.
  pose proof (Count_loop_range (String.length s) s sep) as Hc.
  rewrite (Split_loop s sep (S (String.length s)))
    by (try assumption; unfold Count; lia).
  cbn [genSplit_loop]. destruct (Z.ltb_spec (Index s sep) 0); [reflexivity|].
  f_equal. symmetry. apply Split_loop; [assumption|].
  set (s' := slice_from s (Index s sep + len sep)).
  pose proof (Count_loop_range (String.length s') s' sep).
  assert (String.length s' <= String.length s)%nat
    by (unfold s', slice_from; rewrite length_drop; lia).
  unfold Count. lia.
Qed.

Lemma Split_length_pos (s sep : string) :
  sep <> "" -> (1 <= List.length (Split s sep))%nat.
Proof.
  intros Hsep. rewrite Split_unfold by assumption.
  destruct (Index s sep <? 0); cbn [List.length]; lia.
Qed.

(** The separator of [Verify]: a comma and one space. *)
Lemma Index_comma_space (a rest : string) :
  Index a ", " = -1 -> Index (a ++ ", " ++ rest) ", " = len a.
Proof.
  unfold len. induction a as [|c a IH]; intros H.
  - reflexivity.
  - cbn [Index] in H.
    destruct (HasPrefix (String c a) ", ") eqn:E; [discriminate|].
    destruct (Z.ltb_spec (Index a ", ") 0) as [Hm|Hm]; [|lia].
    assert (Ha : Index a ", " = -1)
      by (destruct (Index_range a ", "); lia).
    assert (E' : HasPrefix (String c (a ++ ", " ++ rest)) ", "
                 = HasPrefix (String c a) ", ").
    { cbn [HasPrefix]. destruct (Ascii.eqb c ","); [|reflexivity].
      destruct a as [|d a]; [reflexivity|].
      rewrite append_cons. now destruct (Ascii.eqb d " "). }
    rewrite append_cons. cbn [Index]. rewrite E', E, (IH Ha).
    cbn [String.length].
    destruct (Z.ltb_spec (Z.of_nat (String.length a)) 0); lia.
Qed.

Lemma Split_no_delimiter (s : string) :
  (forall pre post, s <> pre ++ ", " ++ post) -> Split s ", " = [s].
Proof.
  intros H. rewrite Split_unfold by discriminate.
  now rewrite (Index_absent _ _ H).
Qed.

Lemma Split_at_delimiter (a rest : string) :
  (forall pre post, a <> pre ++ ", " ++ post) ->
  Split (a ++ ", " ++ rest) ", " = a :: Split rest ", ".
Proof.
  intros H. rewrite Split_unfold by discriminate.
  rewrite (Index_comma_space _ _ (Index_absent _ _ H)).
  unfold len, slice_to, slice_from.
  destruct (Z.ltb_spec (Z.of_nat (String.length a)) 0); [lia|].
  rewrite Nat2Z.id, take_append.
  replace (Z.to_nat (Z.of_nat (String.length a) + Z.of_nat (String.length ", ")))
    with (String.length a + 2)%nat by (cbn [String.length]; lia).
  now rewrite drop_append_add.
Qed.

Lemma TrimRight_delimiter (cutset : string) (c : ascii) (x : string) :
  contains_byte cutset c = true -> free_of cutset x = true ->
  TrimRight (x ++ String c "") cutset = x.
Proof.
  intros Hc. induction x as [|d x IH]; intros Hx.
  - rewrite append_nil_l. cbn [TrimRight]. now rewrite Hc.
  - cbn [free_of] in Hx. apply andb_true_iff in Hx as [Hd Hx].
    apply negb_true_iff in Hd.
    rewrite append_cons. cbn [TrimRight]. rewrite (IH Hx), Hd.
    now destruct x.
Qed.

(** [Trim] takes the delimiters off a value that contains none. *)
Lemma Trim_delimited (cutset : string) (c : ascii) (x : string) :
  contains_byte cutset c = true -> free_of cutset x = true ->
  Trim (String c (x ++ String c "")) cutset = x.
Proof.
  intros Hc Hx. unfold Trim. cbn [TrimRight].
  rewrite (TrimRight_delimiter _ _ _ Hc Hx).
  destruct x as [|d x].
  - now rewrite Hc.
  - cbn [free_of] in Hx. apply andb_true_iff in Hx as [Hd _].
    apply negb_true_iff in Hd. cbn [TrimLeft]. now rewrite Hc, Hd.
Qed.

End strings_facts.

Module subtle_facts.
Import subtle.

Lemma byte_to_N_inj (a b : byte) : Byte.to_N a = Byte.to_N b -> a = b.
Proof.
  intros H. apply (f_equal Byte.of_N) in H.
  rewrite !Byte.of_to_N in H. congruence.
Qed.

Lemma byte_uint8 (a : byte) : is_uint8 (Z.of_N (Byte.to_N a)).
Proof. pose proof (Byte.to_N_bounded a). unfold is_uint8. lia. Qed.

Lemma lt_pow2_log2 (v : Z) : 0 <= v -> (v < 2 ^ 8 <-> Z.log2 v < 8).
Proof.
  intros Hv. destruct (Z.eq_dec v 0) as [->|]; [cbn; lia|].
  apply Z.log2_lt_pow2. lia.
Qed.

Lemma lor_uint8 (a b : Z) : is_uint8 a -> is_uint8 b -> is_uint8 (Z.lor a b).
Proof.
  unfold is_uint8. intros [Ha Ha'] [Hb Hb'].
  assert (0 <= Z.lor a b) by (apply Z.lor_nonneg; lia).
  split; [assumption|]. apply lt_pow2_log2; [assumption|].
  rewrite Z.log2_lor by lia.
  apply lt_pow2_log2 in Ha', Hb'; lia.
Qed.

Lemma lxor_uint8 (a b : Z) : is_uint8 a -> is_uint8 b -> is_uint8 (Z.lxor a b).
Proof.
  unfold is_uint8. intros [Ha Ha'] [Hb Hb'].
  assert (0 <= Z.lxor a b) by (apply Z.lxor_nonneg; lia).
  split; [assumption|]. apply lt_pow2_log2; [assumption|].
  pose proof (Z.log2_lxor a b Ha Hb).
  apply lt_pow2_log2 in Ha', Hb'; lia.
Qed.

(** The accumulator of [ConstantTimeCompare] stays a byte, and it is zero
    at the end exactly when it was zero and the slices are equal. *)
Lemma fold_xor_spec (x : list byte) :
  forall (y : list byte) (v : Z),
    List.length x = List.length y -> is_uint8 v ->
    is_uint8 (fold_xor v x y) /\ (fold_xor v x y = 0 <-> v = 0 /\ x = y).
Proof.
  induction x as [|a x IH]; intros [|b y] v Hlen Hv; try discriminate.
  - cbn. intuition.
  - cbn [fold_xor]. injection Hlen as Hlen.
    set (d := Z.lxor (Z.of_N (Byte.to_N a)) (Z.of_N (Byte.to_N b))).
    assert (Hd : is_uint8 d) by (apply lxor_uint8; apply byte_uint8).
    destruct (IH y (Z.lor v d) Hlen (lor_uint8 _ _ Hv Hd)) as [Hr Hz].
    split; [assumption|]. rewrite Hz, Z.lor_eq_0_iff. unfold d.
    rewrite Z.lxor_eq_0_iff. split.
    + intros [[-> Hab] ->]. split; [reflexivity|]. f_equal.
      apply byte_to_N_inj. lia.
    + intros [-> E]. injection E as -> ->. auto.
Qed.

Lemma ConstantTimeByteEq_zero (v : Z) :
  is_uint8 v -> (ConstantTimeByteEq v 0 = 1 <-> v = 0).
Proof.
  unfold is_uint8, ConstantTimeByteEq. intros Hv. rewrite Z.lxor_0_r.
  split.
  - intros H. destruct (Z.eq_dec v 0) as [|Hn]; [assumption|exfalso].
    rewrite Z.mod_small, Z.shiftr_div_pow2, Z.div_small in H; lia.
  - intros ->. reflexivity.
Qed.

(** [ConstantTimeCompare] answers 1 exactly for equal slices. *)
Lemma ConstantTimeCompare_eq (x y : list byte) :
  ConstantTimeCompare x y = 1 <-> x = y.
Proof.
  unfold ConstantTimeCompare.
  destruct (Nat.eqb_spec (List.length x) (List.length y)) as [Hlen|Hlen]; cbn [negb].
  - assert (H0 : is_uint8 0) by (unfold is_uint8; lia).
    destruct (fold_xor_spec x y 0 Hlen H0) as [Hr Hz].
    rewrite (ConstantTimeByteEq_zero _ Hr), Hz. intuition.
  - split; [discriminate|]. intros ->. contradiction.
Qed.

Lemma hmac_Equal_eq (x y : list byte) : hmac.Equal x y = true <-> x = y.
Proof. unfold hmac.Equal. rewrite Z.eqb_eq. apply ConstantTimeCompare_eq. Qed.

End subtle_facts.

(** * [Verify] *)

Section VerifyFacts.

Context (parseSignatureInput : string -> option signatureParams.t)
        (canonicalizeRequestTarget : string -> url.URL -> error + list byte)
        (canonicalizeHeader : string -> gmap string (list string) -> error + list byte)
        (canonicalizeSignatureParams : signatureParams.t -> list byte).

Local Abbreviation Verify :=
  (Verify parseSignatureInput canonicalizeRequestTarget canonicalizeHeader
          canonicalizeSignatureParams).
Local Abbreviation checkEntry :=
  (checkEntry canonicalizeRequestTarget canonicalizeHeader
              canonicalizeSignatureParams).
Local Abbreviation checkSelected :=
  (checkSelected canonicalizeRequestTarget canonicalizeHeader
                 canonicalizeSignatureParams).
Local Abbreviation checkSignature :=
  (checkSignature canonicalizeRequestTarget canonicalizeHeader
                  canonicalizeSignatureParams).
Local Abbreviation canonicalize :=
  (canonicalize canonicalizeRequestTarget canonicalizeHeader).
Local Abbreviation selectParams := (selectParams parseSignatureInput).
Local Abbreviation parsesTo := (parsesTo parseSignatureInput).
Local Abbreviation unparsable := (unparsable parseSignatureInput).
Local Abbreviation canonNever :=
  (canonNever canonicalizeRequestTarget canonicalizeHeader).
Local Abbreviation KeyMatched := (KeyMatched parseSignatureInput).
Local Abbreviation SignatureFound := (SignatureFound parseSignatureInput).
Local Abbreviation CryptoChecked :=
  (CryptoChecked parseSignatureInput canonicalizeRequestTarget
                 canonicalizeHeader canonicalizeSignatureParams).

(** ** The stages one by one *)

Lemma Verify_not_signed (v : verifier.t) (clock : time.Time) (msg : message.t) :
  sigHdr msg = "" \/ paramHdr msg = "" ->
  Verify v clock msg = Return (Some notSignedError).
Proof.
  unfold Verify, sigHdr, paramHdr. intros [H|H]; rewrite H.
  - reflexivity.
  - now destruct (String.eqb _ "").
Qed.

Lemma Verify_length_mismatch (v : verifier.t) (clock : time.Time) (msg : message.t) :
  sigHdr msg <> "" -> paramHdr msg <> "" ->
  List.length (sigParts msg) <> List.length (paramParts msg) ->
  Verify v clock msg = Return (Some malformedSignatureError).
Proof.
  unfold Verify, sigParts, paramParts, sigHdr, paramHdr. intros H1 H2 H3.
  apply String.eqb_neq in H1, H2. apply Nat.eqb_neq in H3.
  now rewrite H1, H2, H3.
Qed.

Lemma Verify_extracted (v : verifier.t) (clock : time.Time) (msg : message.t) :
  HeadersExtracted msg ->
  Verify v clock msg =
    match selectParams (verifier.keys v) (paramParts msg) with
    | SelError e => Return (Some e)
    | SelNone => Return (Some unknownKeyError)
    | SelFound sigID params => checkEntry v (sigParts msg) sigID params clock msg
    end.
Proof.
  unfold Verify, HeadersExtracted, sigParts, paramParts, sigHdr, paramHdr.
  intros (H1 & H2 & H3).
  apply String.eqb_neq in H1, H2. apply Nat.eqb_eq in H3.
  now rewrite H1, H2, H3.
Qed.

Lemma Verify_key_matched v clock msg sigID params :
  KeyMatched v msg sigID params ->
  Verify v clock msg = checkEntry v (sigParts msg) sigID params clock msg.
Proof. intros [H1 H2]. now rewrite Verify_extracted, H2. Qed.

Lemma Verify_signature_found v clock msg sigID params signature :
  SignatureFound v msg sigID params signature ->
  Verify v clock msg = checkSelected v params signature clock msg.
Proof.
  intros (H1 & H2 & H3). rewrite (Verify_key_matched _ _ _ _ _ H1).
  unfold checkEntry. rewrite H2. apply String.eqb_neq in H3. now rewrite H3.
Qed.

Lemma Verify_crypto_checked v clock msg params r :
  CryptoChecked v msg params r ->
  Verify v clock msg =
    match r with
    | Some _ => Return (Some invalidSignatureError)
    | None => if expiryFails params clock
              then Return (Some signatureExpiredError)
              else Return None
    end.
Proof.
  intros (sigID & signature & ver & sig & new & b &
          H1 & H2 & H3 & H4 & H5 & H6 & H7).
  rewrite (Verify_signature_found _ _ _ _ _ _ H1).
  unfold checkSelected. rewrite H2. simpl. rewrite H3, H4.
  unfold checkSignature. now rewrite H5, H6, H7.
Qed.

(** ** The loops *)

Lemma selectParams_error keys paramParts e :
  selectParams keys paramParts = SelError e -> e = malformedSignatureError.
Proof.
  induction paramParts as [|p rest IH]; cbn [httpsig.selectParams];
    intros H; repeat case_match; simplify_eq; auto.
Qed.

Lemma selectParams_found keys paramParts sigID params :
  selectParams keys paramParts = SelFound sigID params ->
  is_Some (keys !! signatureParams.keyID params).
Proof.
  induction paramParts as [|p rest IH]; cbn [httpsig.selectParams];
    intros H; repeat case_match; simplify_eq; eauto.
Qed.

(** Entries that parse and are not registered are passed over. *)
Lemma selectParams_skip keys pre entries rest :
  Forall2 parsesTo pre entries -> Forall (unregistered keys) entries ->
  selectParams keys (pre ++ rest) = selectParams keys rest.
Proof.
  induction 1 as [|p e pre entries (blob & Hs & Hp) _ IH]; intros Hu.
  - reflexivity.
  - apply Forall_cons in Hu as [Hu Hus].
    cbn [app httpsig.selectParams]. rewrite Hs, Hp, Hu. auto.
Qed.

Lemma selectParams_none keys paramParts entries :
  Forall2 parsesTo paramParts entries -> Forall (unregistered keys) entries ->
  selectParams keys paramParts = SelNone.
Proof.
  intros H1 H2. rewrite <- (app_nil_r paramParts).
  now rewrite (selectParams_skip _ _ _ _ H1 H2).
Qed.

Lemma selectParams_first keys p e rest :
  parsesTo p e -> registered keys e ->
  selectParams keys (p :: rest) = SelFound e.1 e.2.
Proof.
  intros (blob & Hs & Hp) [ver Hr]. cbn [httpsig.selectParams].
  now rewrite Hs, Hp, Hr.
Qed.

Lemma selectParams_unparsable keys p rest :
  unparsable p -> selectParams keys (p :: rest) = SelError malformedSignatureError.
Proof.
  intros H. cbn [httpsig.selectParams].
  destruct (strings.SplitN p "=" 2) as [|id [|blob [|]]] eqn:E; try reflexivity.
  now rewrite (H _ _ E).
Qed.

Lemma findSignature_error sigParts sigID e :
  findSignature sigParts sigID = inl e -> e = malformedSignatureError.
Proof.
  induction sigParts as [|s rest IH]; cbn [findSignature];
    intros H; repeat case_match; simplify_eq; auto.
Qed.

Lemma canonicalize_error msg items b e :
  canonNever e -> canonicalize msg items b <> inl e.
Proof.
  intros [H1 H2]. revert b.
  induction items as [|h rest IH]; intros b; cbn [httpsig.canonicalize].
  - discriminate.
  - repeat case_match; try apply IH; intros [= ->];
      [eapply H1|eapply H2]; eassumption.
Qed.

Lemma algMismatch_true ver params :
  algMismatch ver params = true <->
  verHolder.alg ver <> "" /\ signatureParams.alg params <> "" /\
  verHolder.alg ver <> signatureParams.alg params.
Proof.
  unfold algMismatch. rewrite !andb_true_iff, !negb_true_iff, !String.eqb_neq.
  tauto.
Qed.

(** Every error [Verify] returns, with the state it was returned from. *)
Lemma Verify_error_inv v clock msg e :
  canonNever e ->
  Verify v clock msg = Return (Some e) ->
  (e = notSignedError /\ (sigHdr msg = "" \/ paramHdr msg = "")) \/
  e = malformedSignatureError \/
  (e = unknownKeyError /\ HeadersExtracted msg /\
   selectParams (verifier.keys v) (paramParts msg) = SelNone) \/
  (e = algMismatchError /\
   exists sigID params signature ver,
     SignatureFound v msg sigID params signature /\
     verifier.keys v !! signatureParams.keyID params = Some ver /\
     algMismatch ver params = true) \/
  (e = invalidSignatureError /\
   exists params r, CryptoChecked v msg params (Some r)) \/
  (e = signatureExpiredError /\
   exists params, CryptoChecked v msg params None /\
                  expiryFails params clock = true).
Proof.
  intros Hc H.
  destruct (String.eqb_spec (sigHdr msg) "") as [E1|E1].
  { rewrite Verify_not_signed in H by auto. injection H as <-. auto. }
  destruct (String.eqb_spec (paramHdr msg) "") as [E2|E2].
  { rewrite Verify_not_signed in H by auto. injection H as <-. auto. }
  destruct (Nat.eq_dec (List.length (sigParts msg)) (List.length (paramParts msg)))
    as [E3|E3].
  2: { rewrite Verify_length_mismatch in H by auto. injection H as <-. auto. }
  assert (HE : HeadersExtracted msg) by (repeat split; assumption).
  rewrite Verify_extracted in H by assumption.
  destruct (selectParams _ _) as [e'| |sigID params] eqn:Hsel.
  { apply selectParams_error in Hsel as ->. injection H as <-. auto. }
  { injection H as <-. auto 10. }
  destruct (selectParams_found _ _ _ _ Hsel) as [ver Hver].
  unfold checkEntry in H.
  destruct (findSignature _ _) as [e'|signature] eqn:Hf.
  { apply findSignature_error in Hf as ->. injection H as <-. auto. }
  destruct (String.eqb_spec signature "") as [E4|E4].
  { injection H as <-. auto. }
  assert (HS : SignatureFound v msg sigID params signature)
    by (repeat split; assumption).
  unfold checkSelected in H. rewrite Hver in H. simpl in H.
  destruct (algMismatch ver params) eqn:Ha.
  { injection H as <-. do 3 right. left. split; [reflexivity|].
    exists sigID, params, signature, ver. auto. }
  destruct (base64.DecodeString signature) as [sig|] eqn:Hd.
  2: { injection H as <-. auto. }
  unfold checkSignature in H.
  destruct (verHolder.verifier ver) as [new|] eqn:Hn; [|discriminate].
  destruct (canonicalize _ _ _) as [e'|b] eqn:Hcan.
  { injection H as ->. exfalso. eapply canonicalize_error; eassumption. }
  destruct (verImpl.verify _ _ _) as [r|] eqn:Hv.
  - injection H as <-. do 4 right. left. split; [reflexivity|].
    exists params, r, sigID, signature, ver, sig, new, b. auto 10.
  - destruct (expiryFails params clock) eqn:He; [|discriminate].
    injection H as <-. do 5 right. split; [reflexivity|].
    exists params. split; [|assumption].
    exists sigID, signature, ver, sig, new, b. auto 10.
Qed.

(** ** The claims *)

(** C2, amended.  [Verify] returns NotSigned when either of the Signature
    and Signature-Input headers is absent; when both are present and the
    two lists split at [", "] differ in length, it returns
    MalformedSignature; and, the canonicalisers never answering NotSigned
    themselves, it returns NotSigned in no other case. *)
Theorem C2_not_signed_when_either_header_absent v clock msg :
  (sigHdr msg = "" \/ paramHdr msg = "" ->
   Verify v clock msg = Return (Some notSignedError)) /\
  (sigHdr msg <> "" -> paramHdr msg <> "" ->
   List.length (sigParts msg) <> List.length (paramParts msg) ->
   Verify v clock msg = Return (Some malformedSignatureError)) /\
  (canonNever notSignedError ->
   Verify v clock msg = Return (Some notSignedError) ->
   sigHdr msg = "" \/ paramHdr msg = "").
Proof.
  split; [|split].
  - apply Verify_not_signed.
  - apply Verify_length_mismatch.
  - intros Hc H. apply Verify_error_inv in H; [|assumption].
    destruct H as [[_ H]|H]; [assumption|].
    repeat (destruct H as [H|H]); try discriminate; destruct H; discriminate.
Qed.

(** C3.  When all entries of Signature-Input parse, [Verify] goes on with
    the first entry, in header order, whose keyid is in the registry,
    whatever follows that entry, and verifies the signature of that entry:
    the text found in the Signature header for the entry's id, decoded, is
    handed to an instance of the holder registered under the entry's
    keyid, after the canonical bytes of the entry's covered components and
    the bytes of its parameters have been written to the instance, and
    [Verify] returns InvalidSignature when the instance rejects it.  When
    no entry's keyid is in the registry [Verify] returns UnknownKey. *)
Theorem C3_first_registered_entry_is_selected v clock msg entries :
  HeadersExtracted msg ->
  Forall2 parsesTo (paramParts msg) entries ->
  (forall pre e post,
      entries = (pre ++ e :: post)%list ->
      Forall (unregistered (verifier.keys v)) pre ->
      registered (verifier.keys v) e ->
      selectParams (verifier.keys v) (paramParts msg) = SelFound e.1 e.2 /\
      Verify v clock msg = checkEntry v (sigParts msg) e.1 e.2 clock msg /\
      (forall signature ver sig new b,
          findSignature (sigParts msg) e.1 = inr signature ->
          signature <> "" ->
          verifier.keys v !! signatureParams.keyID e.2 = Some ver ->
          algMismatch ver e.2 = false ->
          base64.DecodeString signature = Some sig ->
          verHolder.verifier ver = Some new ->
          canonicalize msg (signatureParams.items e.2) [] = inr b ->
          Verify v clock msg =
            match verImpl.verify (new tt)
                    (Write (Write (verImpl.w (new tt)) b)
                           (canonicalizeSignatureParams e.2)) sig with
            | Some _ => Return (Some invalidSignatureError)
            | None => if expiryFails e.2 clock
                      then Return (Some signatureExpiredError)
                      else Return None
            end)) /\
  (Forall (unregistered (verifier.keys v)) entries ->
   Verify v clock msg = Return (Some unknownKeyError)).
Proof.
  intros HE Hparse. split.
  - intros pre e post -> Hpre He.
    apply Forall2_app_inv_r in Hparse as (ppre & prest & H1 & H2 & Hpp).
    apply Forall2_cons_inv_r in H2 as (p & ppost & Hp & _ & ->).
    assert (Hsel : selectParams (verifier.keys v) (paramParts msg)
                   = SelFound e.1 e.2).
    { rewrite Hpp, (selectParams_skip _ _ _ _ H1 Hpre).
      now apply selectParams_first. }
    split; [assumption|]. split; [now rewrite Verify_extracted, Hsel|].
    intros signature ver sig new b Hf Hne Hver Ha Hd Hn Hcan.
    assert (HS : SignatureFound v msg e.1 e.2 signature)
      by (split; [split; assumption|split; assumption]).
    apply (Verify_crypto_checked v clock msg e.2).
    exists e.1, signature, ver, sig, new, b. auto 10.
  - intros Hu. rewrite Verify_extracted by assumption.
    now rewrite (selectParams_none _ _ _ Hparse Hu).
Qed.

(** C5, amended.  The blobs of Signature-Input are parsed in header order
    up to the first entry whose keyid is in the registry: an entry that
    does not parse, coming before any registered entry, makes [Verify]
    return MalformedSignature; once a registered entry is reached the
    loop ends, and [Verify] goes on with that entry whatever the entries
    after it are. *)
Theorem C5_parsing_stops_at_first_registered_entry
    v clock msg pre entries p post :
  HeadersExtracted msg ->
  paramParts msg = (pre ++ p :: post)%list ->
  Forall2 parsesTo pre entries ->
  Forall (unregistered (verifier.keys v)) entries ->
  (unparsable p ->
   Verify v clock msg = Return (Some malformedSignatureError)) /\
  (forall e, parsesTo p e -> registered (verifier.keys v) e ->
     selectParams (verifier.keys v) (pre ++ p :: post)
       = selectParams (verifier.keys v) (pre ++ [p]) /\
     Verify v clock msg = checkEntry v (sigParts msg) e.1 e.2 clock msg).
Proof.
  intros HE Hpp Hpre Hu. rewrite Verify_extracted, Hpp by assumption.
  rewrite !(selectParams_skip _ _ _ _ Hpre Hu). split.
  - intros Hp. now rewrite selectParams_unparsable.
  - intros e Hp He. now rewrite !(selectParams_first _ _ _ _ Hp He).
Qed.

Lemma findSignature_skip pre rest sigID :
  Forall (fun s => exists id value,
              strings.SplitN s "=" 2 = [id; value] /\ id <> sigID) pre ->
  findSignature (pre ++ rest) sigID = findSignature rest sigID.
Proof.
  induction 1 as [|s pre (id & value & Hs & Hid) _ IH]; [reflexivity|].
  cbn [app findSignature]. rewrite Hs.
  apply String.eqb_neq in Hid. now rewrite Hid.
Qed.

Lemma findSignature_absent sigParts sigID :
  (forall s value, In s sigParts -> strings.SplitN s "=" 2 <> [sigID; value]) ->
  findSignature sigParts sigID = inl malformedSignatureError \/
  findSignature sigParts sigID = inr "".
Proof.
  induction sigParts as [|s rest IH]; intros H; cbn [findSignature]; [auto|].
  destruct (strings.SplitN s "=" 2) as [|id [|value [|]]] eqn:E; auto.
  destruct (String.eqb_spec id sigID) as [->|].
  - exfalso. eapply H; [left; reflexivity|eassumption].
  - apply IH. intros s' value' Hin. apply H. now right.
Qed.

Lemma checkSignature_error ver params sig clock msg e :
  canonNever e ->
  checkSignature ver params sig clock msg = Return (Some e) ->
  e = invalidSignatureError \/ e = signatureExpiredError.
Proof.
  intros Hc. unfold checkSignature.
  destruct (verHolder.verifier ver); [|discriminate].
  destruct (canonicalize _ _ _) eqn:Hcan.
  { intros [= ->]. exfalso. eapply canonicalize_error; eassumption. }
  repeat case_match; intros [= <-]; auto.
Qed.

(** C6, amended.  Once the entry is selected and its signature text found
    and found non-empty, [Verify] returns AlgMismatch when the label of the registry entry and
    the parsed [alg] are both non-empty and differ.  Nothing is asked of the
    signature text, of the factory or of the canonicalisers: the answer is
    given before the text is decoded, a verifier instance made or a
    component canonicalised.  When one of the labels is empty, or the two
    are equal, the check passes: [Verify] does not return AlgMismatch (as
    long as the canonicalisers do not answer AlgMismatch themselves). *)
Theorem C6_alg_mismatch_before_crypto v clock msg sigID params signature ver :
  SignatureFound v msg sigID params signature ->
  verifier.keys v !! signatureParams.keyID params = Some ver ->
  (verHolder.alg ver <> "" /\ signatureParams.alg params <> "" /\
   verHolder.alg ver <> signatureParams.alg params ->
   Verify v clock msg = Return (Some algMismatchError)) /\
  (canonNever algMismatchError ->
   Verify v clock msg = Return (Some algMismatchError) ->
   verHolder.alg ver <> "" /\ signatureParams.alg params <> "" /\
   verHolder.alg ver <> signatureParams.alg params).
Proof.
  intros HS Hver. rewrite <- algMismatch_true.
  rewrite (Verify_signature_found _ _ _ _ _ _ HS).
  unfold checkSelected. rewrite Hver. simpl.
  destruct (algMismatch ver params); [tauto|].
  split; [discriminate|]. intros Hc H. exfalso.
  destruct (base64.DecodeString signature); [|discriminate].
  apply checkSignature_error in H as [H|H]; [discriminate..|assumption].
Qed.

(** C7, amended.  For the selected id, the signature text is what
    [strings.Trim] leaves of the value of the first entry of the Signature
    header with that id, the colons around it taken off; [Verify] returns
    MalformedSignature when no entry of the header has that id, and, the
    algorithm labels not mismatching, when the text is not standard
    base64. *)
Theorem C7_signature_value_extraction v clock msg sigID params :
  KeyMatched v msg sigID params ->
  (forall pre s post value,
      sigParts msg = (pre ++ s :: post)%list ->
      Forall (fun s' => exists id value',
                  strings.SplitN s' "=" 2 = [id; value'] /\ id <> sigID) pre ->
      strings.SplitN s "=" 2 = [sigID; value] ->
      findSignature (sigParts msg) sigID = inr (strings.Trim value ":")) /\
  (forall x, strings.free_of ":" x = true ->
             strings.Trim (":" ++ x ++ ":") ":" = x) /\
  ((forall s value, In s (sigParts msg) ->
                    strings.SplitN s "=" 2 <> [sigID; value]) ->
   Verify v clock msg = Return (Some malformedSignatureError)) /\
  (forall signature ver,
      findSignature (sigParts msg) sigID = inr signature ->
      verifier.keys v !! signatureParams.keyID params = Some ver ->
      algMismatch ver params = false ->
      base64.DecodeString signature = None ->
      Verify v clock msg = Return (Some malformedSignatureError)).
Proof.
  intros HK. rewrite (Verify_key_matched _ _ _ _ _ HK). unfold checkEntry.
  repeat split.
  - intros pre s post value -> Hpre Hs.
    rewrite (findSignature_skip _ _ _ Hpre). cbn [findSignature].
    now rewrite Hs, String.eqb_refl.
  - intros x Hx. now apply (strings_facts.Trim_delimited ":" ":" x).
  - intros H. now destruct (findSignature_absent _ _ H) as [-> | ->].
  - intros signature ver Hf Hver Ha Hd. rewrite Hf.
    destruct (String.eqb signature ""); [reflexivity|].
    unfold checkSelected. rewrite Hver. simpl. now rewrite Ha, Hd.
Qed.

(** C8.  The cryptographic check comes before the expiry check and is
    never gone back on: whenever the instance's [verify] fails, [Verify]
    returns InvalidSignature, expired or not; and (the canonicalisers never
    answering SignatureExpired themselves) [Verify] returns
    SignatureExpired only after the instance's [verify] has succeeded. *)
Theorem C8_crypto_check_precedes_expiry_check v clock msg :
  (forall params e,
      CryptoChecked v msg params (Some e) ->
      Verify v clock msg = Return (Some invalidSignatureError)) /\
  (canonNever signatureExpiredError ->
   Verify v clock msg = Return (Some signatureExpiredError) ->
   exists params, CryptoChecked v msg params None /\
                  expiryFails params clock = true).
Proof.
  split.
  - intros params e H. now rewrite (Verify_crypto_checked _ _ _ _ _ H).
  - intros Hc H. apply Verify_error_inv in H; [|assumption].
    repeat (destruct H as [H|H]); try discriminate;
      destruct H as [H1 H2]; try discriminate. assumption.
Qed.

(** The registry holding no nil factory, the model of [Verify] reaches a
    [return]: the key looked up after the loop is the one the loop found.
    (Instances with nil fields are outside [verImpl.t].) *)
Lemma Verify_returns v clock msg :
  (forall k ver, verifier.keys v !! k = Some ver ->
                 is_Some (verHolder.verifier ver)) ->
  exists err, Verify v clock msg = Return err.
Proof.
  intros Hk. unfold Verify, httpsig.Verify.
  repeat (case_match; eauto).
  unfold checkEntry, httpsig.checkEntry. repeat (case_match; eauto).
  unfold checkSelected, httpsig.checkSelected.
  match goal with H : httpsig.selectParams _ _ _ = SelFound _ _ |- _ =>
    destruct (selectParams_found _ _ _ _ H) as [ver Hver] end.
  rewrite Hver. simpl. repeat (case_match; eauto).
  unfold checkSignature, httpsig.checkSignature.
  destruct (Hk _ _ Hver) as [new ->]. repeat (case_match; eauto).
Qed.

(** C1: what the code does at the expiry check.  All earlier checks
    having succeeded, an [expires] before the clock is accepted and an
    [expires] after the clock yields SignatureExpired: the comparison is
    the reverse of the one the claim asks for.  An unset [expires] is
    accepted. *)
Theorem C1_expiry_comparison_is_reversed v clock msg params :
  CryptoChecked v msg params None ->
  (forall e, signatureParams.expires params = Some e -> e < clock ->
             Verify v clock msg = Return None) /\
  (forall e, signatureParams.expires params = Some e -> clock < e ->
             Verify v clock msg = Return (Some signatureExpiredError)) /\
  (signatureParams.expires params = None -> Verify v clock msg = Return None).
Proof.
  intros H. rewrite (Verify_crypto_checked _ _ _ _ _ H).
  unfold expiryFails, time.After. repeat split.
  - intros e -> He. destruct (Z.ltb_spec clock e); [lia|reflexivity].
  - intros e -> He. destruct (Z.ltb_spec clock e); [reflexivity|lia].
  - now intros ->.
Qed.

(** C4: what the code does with [nowFunc].  [Verify] reads the wall clock
    itself and never calls the verifier's [nowFunc]: replacing the field
    leaves every outcome as it was. *)
Theorem C4_nowFunc_is_never_called v nowFunc' clock msg :
  Verify (verifier.mk (verifier.keys v) nowFunc') clock msg = Verify v clock msg.
Proof. reflexivity. Qed.

End VerifyFacts.

(** * The HMAC-SHA256 verifier *)

Lemma fold_left_Write (writes : list (list byte)) (w : Writer) :
  fold_left Write writes w = (w ++ concat writes)%list.
Proof.
  revert w; induction writes as [|p writes IH]; intros w; cbn [fold_left concat].
  - now rewrite app_nil_r.
  - rewrite IH. unfold Write. now rewrite app_assoc.
Qed.

(** C9.  The instance made by [verifyHmacSha256 secret], after any sequence
    of writes, accepts a signature exactly when the signature is the
    HMAC-SHA256, under [secret], of all bytes written, in order; any other
    signature is answered with InvalidSignature. *)
Theorem C9_hmac_accepts_exactly_the_mac
    (hmac_sha256 : list byte -> list byte -> list byte) (secret : list byte) :
  exists new,
    verHolder.verifier (verifyHmacSha256 hmac_sha256 secret) = Some new /\
    forall (writes : list (list byte)) (in_ : list byte),
      let h := fold_left Write writes (verImpl.w (new tt)) in
      (verImpl.verify (new tt) h in_ = None <->
         in_ = hmac_sha256 secret (concat writes)) /\
      (verImpl.verify (new tt) h in_ = Some invalidSignatureError <->
         in_ <> hmac_sha256 secret (concat writes)).
Proof.
  eexists. split; [reflexivity|]. intros writes in_. cbn zeta.
  rewrite fold_left_Write. cbn [verImpl.w verImpl.verify app].
  pose proof (subtle_facts.hmac_Equal_eq in_ (hmac_sha256 secret (concat writes))) as H.
  destruct (hmac.Equal in_ _); cbn [negb].
  - assert (Heq : in_ = hmac_sha256 secret (concat writes)) by now apply H.
    repeat split; auto; try discriminate. intros Hne. contradiction.
  - assert (Hne : in_ <> hmac_sha256 secret (concat writes))
      by (intros Heq; apply H in Heq; discriminate).
    repeat split; auto; try discriminate. intros Heq. contradiction.
Qed.

(** * The separator of the two headers *)

(** C10, amended.  The two header values are cut at the exact two bytes
    comma, space.  A value with no comma followed by a space is one entry,
    so entries joined by a bare comma are not cut apart.  At a comma
    followed by a space the value is cut, and what follows is cut on in the
    same way: further spaces after the comma stay at the front of the next
    entry. *)
Theorem C10_split_at_comma_space (a rest : string) :
  (forall pre post, a <> pre ++ ", " ++ post) ->
  strings.Split a ", " = [a] /\
  strings.Split (a ++ ", " ++ rest) ", " = a :: strings.Split rest ", ".
Proof.
  intros H. split.
  - now apply strings_facts.Split_no_delimiter.
  - now apply strings_facts.Split_at_delimiter.
Qed.

(** * The claims on the sample instance *)

Lemma Sample_canonNever (e : error) :
  e <> malformedSignatureError ->
  canonNever Sample.canonicalizeRequestTarget Sample.canonicalizeHeader e.
Proof.
  intros He. split.
  - intros method u. discriminate.
  - intros name hdr. unfold Sample.canonicalizeHeader.
    repeat case_match; congruence.
Qed.

Ltac sample := vm_compute; first [reflexivity | congruence | discriminate].

(** Replaces the entry lists of a concrete request by their values. *)
Ltac parts :=
  repeat match goal with
  | |- context [paramParts ?m] =>
      let x := eval vm_compute in (paramParts m) in
      replace (paramParts m) with x by (vm_compute; reflexivity)
  | |- context [sigParts ?m] =>
      let x := eval vm_compute in (sigParts m) in
      replace (sigParts m) with x by (vm_compute; reflexivity)
  end.

Ltac extracted := split; [|split]; sample.
Ltac matched := split; [extracted|sample].
Ltac found := split; [matched|split; sample].

Lemma Sample_CryptoChecked_expiring :
  CryptoChecked Sample.parseSignatureInput Sample.canonicalizeRequestTarget
    Sample.canonicalizeHeader Sample.canonicalizeSignatureParams
    Sample.v (Sample.expiring Sample.good)
    (Sample.params "key1" "" (Some 100)) None.
Proof.
  exists "sig1", Sample.good, Sample.holder,
         (Sample.bytes "sDate: X;keyid=key1").
  eexists. exists (Sample.bytes "Date: X").
  split; [found|]. split; [reflexivity|]. split; [sample|]. split; [sample|].
  split; [reflexivity|]. split; sample.
Qed.

(** C1 at a failing input: [expires] is the instant 100, the clock reads
    150, everything before the expiry check succeeds, and the message is
    accepted. *)
Lemma C1_expired_message_is_accepted :
  signatureParams.expires (Sample.params "key1" "" (Some 100)) = Some 100 /\
  100 < 150 /\
  Sample.Verify Sample.v 150 (Sample.expiring Sample.good) = Return None.
Proof.
  split; [reflexivity|]. split; [lia|].
  destruct (C1_expiry_comparison_is_reversed _ _ _ _ _ 150 _ _
              Sample_CryptoChecked_expiring) as (H & _ & _).
  apply (H 100); [reflexivity|lia].
Defined.

(** C1, the part of the claim that holds: with [expires] unset the message
    is accepted. *)
Example unset_expiry_is_accepted :
  Sample.Verify Sample.v 150 Sample.signed = Return None.
Proof. sample. Qed.

(** C2 as stated fails: with the Signature-Input header present and the
    Signature header absent, [Verify] returns NotSigned, not
    MalformedSignature. *)
Lemma C2_one_header_absent_is_not_signed :
  message.Header Sample.inputOnly !! "Signature" = None /\
  message.Header Sample.inputOnly !! "Signature-Input"
    = Some ["sig1=(Date);keyid=key1"] /\
  Sample.Verify Sample.v 0 Sample.inputOnly = Return (Some notSignedError).
Proof. split; [sample|]. split; sample. Qed.

Lemma C2_witness :
  Sample.Verify Sample.v 0 Sample.signatureOnly = Return (Some notSignedError) /\
  Sample.Verify Sample.v 0 Sample.unequal = Return (Some malformedSignatureError) /\
  (sigHdr Sample.signatureOnly = "" \/ paramHdr Sample.signatureOnly = "").
Proof.
  destruct (C2_not_signed_when_either_header_absent
              Sample.parseSignatureInput Sample.canonicalizeRequestTarget
              Sample.canonicalizeHeader Sample.canonicalizeSignatureParams
              Sample.v 0 Sample.signatureOnly) as (H1 & _ & H3).
  destruct (C2_not_signed_when_either_header_absent
              Sample.parseSignatureInput Sample.canonicalizeRequestTarget
              Sample.canonicalizeHeader Sample.canonicalizeSignatureParams
              Sample.v 0 Sample.unequal) as (_ & H2 & _).
  split; [|split].
  - apply H1. right. sample.
  - apply H2; sample.
  - apply H3; [apply Sample_canonNever; discriminate|sample].
Defined.

Lemma Sample_parsesTo_key1 :
  parsesTo Sample.parseSignatureInput "sig1=(Date);keyid=key1"
           ("sig1", Sample.params "key1" "" None).
Proof. exists "(Date);keyid=key1". split; sample. Qed.

Lemma Sample_parsesTo_key2 :
  parsesTo Sample.parseSignatureInput "sig2=(Date);keyid=key2"
           ("sig2", Sample.params "key2" "" None).
Proof. exists "(Date);keyid=key2". split; sample. Qed.

Lemma Sample_registered_key1 :
  registered Sample.registry ("sig1", Sample.params "key1" "" None).
Proof. exists Sample.holder. reflexivity. Qed.

Lemma Sample_unregistered_key2 :
  unregistered Sample.registry ("sig2", Sample.params "key2" "" None).
Proof. sample. Qed.

Lemma Sample_registered_both (e : string * signatureParams.t) :
  signatureParams.keyID e.2 = "key1" \/ signatureParams.keyID e.2 = "key2" ->
  registered (verifier.keys Sample.vBoth) e.
Proof.
  unfold registered. intros [-> | ->]; [exists Sample.holder|exists Sample.holder2];
    reflexivity.
Qed.

(** Both orders of a registered and an unregistered entry, the case of no
    registered entry, and two registered entries: the entry of [key2]
    comes first and its signature is not the MAC, so that [Verify] returns
    InvalidSignature although the entry of [key1] after it is well
    signed. *)
Lemma C3_witness :
  HeadersExtracted Sample.unregisteredFirst /\
  HeadersExtracted Sample.unregisteredLast /\
  Sample.Verify Sample.v 0 Sample.unregisteredFirst = Return None /\
  Sample.Verify Sample.v 0 Sample.unregisteredLast = Return None /\
  Sample.Verify Sample.v 0 Sample.unregisteredOnly = Return (Some unknownKeyError) /\
  Sample.Verify Sample.vBoth 0 Sample.unregisteredFirst
    = Return (Some invalidSignatureError) /\
  Sample.Verify Sample.vBoth 0 Sample.unregisteredLast = Return None.
Proof.
  assert (H1 : HeadersExtracted Sample.unregisteredFirst) by extracted.
  assert (H2 : HeadersExtracted Sample.unregisteredLast) by extracted.
  assert (H3 : HeadersExtracted Sample.unregisteredOnly) by extracted.
  pose proof Sample_parsesTo_key1 as P1. pose proof Sample_parsesTo_key2 as P2.
  pose proof Sample_registered_key1 as R1.
  pose proof Sample_unregistered_key2 as U2.
  split; [exact H1|]. split; [exact H2|]. repeat apply conj.
  - destruct (C3_first_registered_entry_is_selected
                Sample.parseSignatureInput Sample.canonicalizeRequestTarget
                Sample.canonicalizeHeader Sample.canonicalizeSignatureParams
                Sample.v 0 Sample.unregisteredFirst
                [("sig2", Sample.params "key2" "" None);
                 ("sig1", Sample.params "key1" "" None)] H1) as [H _].
    { parts. repeat constructor; assumption. }
    destruct (H [("sig2", Sample.params "key2" "" None)]
                ("sig1", Sample.params "key1" "" None) [] eq_refl)
      as (_ & Hv & _).
    { repeat constructor; assumption. }
    { assumption. }
    unfold Sample.Verify. rewrite Hv. sample.
  - destruct (C3_first_registered_entry_is_selected
                Sample.parseSignatureInput Sample.canonicalizeRequestTarget
                Sample.canonicalizeHeader Sample.canonicalizeSignatureParams
                Sample.v 0 Sample.unregisteredLast
                [("sig1", Sample.params "key1" "" None);
                 ("sig2", Sample.params "key2" "" None)] H2) as [H _].
    { parts. repeat constructor; assumption. }
    destruct (H [] ("sig1", Sample.params "key1" "" None)
                [("sig2", Sample.params "key2" "" None)] eq_refl)
      as (_ & Hv & _).
    { constructor. }
    { assumption. }
    unfold Sample.Verify. rewrite Hv. sample.
  - apply (C3_first_registered_entry_is_selected
             Sample.parseSignatureInput Sample.canonicalizeRequestTarget
             Sample.canonicalizeHeader Sample.canonicalizeSignatureParams
             Sample.v 0 Sample.unregisteredOnly
             [("sig2", Sample.params "key2" "" None)] H3);
      parts; repeat constructor; assumption.
  - destruct (C3_first_registered_entry_is_selected
                Sample.parseSignatureInput Sample.canonicalizeRequestTarget
                Sample.canonicalizeHeader Sample.canonicalizeSignatureParams
                Sample.vBoth 0 Sample.unregisteredFirst
                [("sig2", Sample.params "key2" "" None);
                 ("sig1", Sample.params "key1" "" None)] H1) as [H _].
    { parts. repeat constructor; assumption. }
    destruct (H [] ("sig2", Sample.params "key2" "" None)
                [("sig1", Sample.params "key1" "" None)] eq_refl)
      as (_ & _ & Hc).
    { constructor. }
    { apply Sample_registered_both. now right. }
    unfold Sample.Verify. etransitivity.
    + eapply (Hc "AAAA" Sample.holder2 _ _ (Sample.bytes "Date: X"));
        [sample|discriminate|reflexivity|sample|sample|reflexivity|sample].
    + sample.
  - destruct (C3_first_registered_entry_is_selected
                Sample.parseSignatureInput Sample.canonicalizeRequestTarget
                Sample.canonicalizeHeader Sample.canonicalizeSignatureParams
                Sample.vBoth 0 Sample.unregisteredLast
                [("sig1", Sample.params "key1" "" None);
                 ("sig2", Sample.params "key2" "" None)] H2) as [H _].
    { parts. repeat constructor; assumption. }
    destruct (H [] ("sig1", Sample.params "key1" "" None)
                [("sig2", Sample.params "key2" "" None)] eq_refl)
      as (_ & _ & Hc).
    { constructor. }
    { apply Sample_registered_both. now left. }
    unfold Sample.Verify. etransitivity.
    + eapply (Hc Sample.good Sample.holder _ _ (Sample.bytes "Date: X"));
        [sample|discriminate|reflexivity|sample|sample|reflexivity|sample].
    + sample.
Defined.

(** C4 at a failing input: with [nowFunc] fixed at the instant 50 and the
    wall clock at 150, the outcome is the one of the wall clock; at a wall
    clock of 50 it is another. *)
Example C4_outcome_follows_the_wall_clock :
  Sample.Verify (verifier.mk Sample.registry (fun _ => 50)) 150
                (Sample.expiring Sample.good) = Return None /\
  Sample.Verify (verifier.mk Sample.registry (fun _ => 50)) 50
                (Sample.expiring Sample.good) = Return (Some signatureExpiredError).
Proof. split; sample. Qed.

(** C5 as stated fails: a blob that does not parse, standing after the
    entry of a registered key, is never parsed, and the message is
    accepted. *)
Lemma C5_malformed_entry_after_the_match_is_not_parsed :
  Sample.parseSignatureInput "%%%" = None /\
  paramParts Sample.malformedLast = ["sig1=(Date);keyid=key1"; "sig2=%%%"] /\
  Sample.Verify Sample.v 0 Sample.malformedLast = Return None.
Proof. split; [sample|]. split; sample. Qed.

Lemma Sample_unparsable : unparsable Sample.parseSignatureInput "sig2=%%%".
Proof. intros id blob H. vm_compute in H. injection H as <- <-. reflexivity. Qed.

Lemma C5_witness :
  HeadersExtracted Sample.malformedFirst /\
  HeadersExtracted Sample.malformedLast /\
  Sample.Verify Sample.v 0 Sample.malformedFirst
    = Return (Some malformedSignatureError) /\
  Sample.Verify Sample.v 0 Sample.malformedLast = Return None.
Proof.
  assert (H1 : HeadersExtracted Sample.malformedFirst) by extracted.
  assert (H2 : HeadersExtracted Sample.malformedLast) by extracted.
  split; [exact H1|]. split; [exact H2|]. split.
  - apply (C5_parsing_stops_at_first_registered_entry
             Sample.parseSignatureInput Sample.canonicalizeRequestTarget
             Sample.canonicalizeHeader Sample.canonicalizeSignatureParams
             Sample.v 0 Sample.malformedFirst [] [] "sig2=%%%"
             ["sig1=(Date);keyid=key1"] H1);
      [sample|constructor|constructor|exact Sample_unparsable].
  - destruct (C5_parsing_stops_at_first_registered_entry
                Sample.parseSignatureInput Sample.canonicalizeRequestTarget
                Sample.canonicalizeHeader Sample.canonicalizeSignatureParams
                Sample.v 0 Sample.malformedLast [] [] "sig1=(Date);keyid=key1"
                ["sig2=%%%"] H2) as [_ H];
      [sample|constructor|constructor|].
    destruct (H _ Sample_parsesTo_key1 Sample_registered_key1) as [_ Hv].
    unfold Sample.Verify. rewrite Hv. sample.
Defined.

Lemma Sample_SignatureFound_wrongAlg :
  SignatureFound Sample.parseSignatureInput Sample.v Sample.wrongAlg
    "sig1" (Sample.params "key1" "rsa-pss-sha512" None) "!!!".
Proof. found. Qed.

Lemma C6_witness :
  SignatureFound Sample.parseSignatureInput Sample.v Sample.wrongAlg
    "sig1" (Sample.params "key1" "rsa-pss-sha512" None) "!!!" /\
  base64.DecodeString "!!!" = None /\
  Sample.Verify Sample.v 0 Sample.wrongAlg = Return (Some algMismatchError) /\
  verHolder.alg Sample.holder
    <> signatureParams.alg (Sample.params "key1" "rsa-pss-sha512" None).
Proof.
  destruct (C6_alg_mismatch_before_crypto
              Sample.parseSignatureInput Sample.canonicalizeRequestTarget
              Sample.canonicalizeHeader Sample.canonicalizeSignatureParams
              Sample.v 0 Sample.wrongAlg _ _ _ Sample.holder
              Sample_SignatureFound_wrongAlg eq_refl) as [H1 H2].
  assert (Hv : Sample.Verify Sample.v 0 Sample.wrongAlg
               = Return (Some algMismatchError))
    by (apply H1; split; [|split]; sample).
  split; [exact Sample_SignatureFound_wrongAlg|].
  split; [sample|]. split; [exact Hv|].
  apply H2; [apply Sample_canonNever; discriminate|exact Hv].
Defined.

(** C7 as stated fails: the signature text [!!!] is not base64, and
    [Verify] returns AlgMismatch, the labels being compared before the text
    is decoded. *)
Lemma C7_alg_mismatch_comes_before_decoding :
  findSignature (sigParts Sample.wrongAlg) "sig1" = inr "!!!" /\
  base64.DecodeString "!!!" = None /\
  Sample.Verify Sample.v 0 Sample.wrongAlg = Return (Some algMismatchError).
Proof. split; [sample|]. split; sample. Qed.

Lemma C7_witness :
  KeyMatched Sample.parseSignatureInput Sample.v Sample.notBase64
    "sig1" (Sample.params "key1" "" None) /\
  KeyMatched Sample.parseSignatureInput Sample.v Sample.noSuchId
    "sig1" (Sample.params "key1" "" None) /\
  Sample.Verify Sample.v 0 Sample.notBase64
    = Return (Some malformedSignatureError) /\
  Sample.Verify Sample.v 0 Sample.noSuchId
    = Return (Some malformedSignatureError).
Proof.
  assert (H1 : KeyMatched Sample.parseSignatureInput Sample.v Sample.notBase64
                 "sig1" (Sample.params "key1" "" None)) by matched.
  assert (H2 : KeyMatched Sample.parseSignatureInput Sample.v Sample.noSuchId
                 "sig1" (Sample.params "key1" "" None)) by matched.
  split; [exact H1|]. split; [exact H2|]. split.
  - destruct (C7_signature_value_extraction _
                Sample.canonicalizeRequestTarget Sample.canonicalizeHeader
                Sample.canonicalizeSignatureParams Sample.v 0 _ _ _ H1)
      as (_ & _ & _ & H).
    apply (H "!!!" Sample.holder); [sample|reflexivity|sample|sample].
  - destruct (C7_signature_value_extraction _
                Sample.canonicalizeRequestTarget Sample.canonicalizeHeader
                Sample.canonicalizeSignatureParams Sample.v 0 _ _ _ H2)
      as (_ & _ & H & _).
    apply H. parts. intros s value [<-|[]]. sample.
Defined.

Lemma Sample_CryptoChecked_bad :
  CryptoChecked Sample.parseSignatureInput Sample.canonicalizeRequestTarget
    Sample.canonicalizeHeader Sample.canonicalizeSignatureParams
    Sample.v (Sample.expiring Sample.bad)
    (Sample.params "key1" "" (Some 100)) (Some invalidSignatureError).
Proof.
  exists "sig1", Sample.bad, Sample.holder, (Sample.bytes "wrong").
  eexists. exists (Sample.bytes "Date: X").
  split; [found|]. split; [reflexivity|]. split; [sample|]. split; [sample|].
  split; [reflexivity|]. split; sample.
Qed.

Lemma C8_witness :
  Sample.Verify Sample.v 50 (Sample.expiring Sample.bad)
    = Return (Some invalidSignatureError) /\
  Sample.Verify Sample.v 150 (Sample.expiring Sample.bad)
    = Return (Some invalidSignatureError) /\
  (exists params,
      CryptoChecked Sample.parseSignatureInput Sample.canonicalizeRequestTarget
        Sample.canonicalizeHeader Sample.canonicalizeSignatureParams
        Sample.v (Sample.expiring Sample.good) params None /\
      expiryFails params 50 = true).
Proof.
  split; [|split].
  - destruct (C8_crypto_check_precedes_expiry_check
                Sample.parseSignatureInput Sample.canonicalizeRequestTarget
                Sample.canonicalizeHeader Sample.canonicalizeSignatureParams
                Sample.v 50 (Sample.expiring Sample.bad)) as [H _].
    exact (H _ _ Sample_CryptoChecked_bad).
  - destruct (C8_crypto_check_precedes_expiry_check
                Sample.parseSignatureInput Sample.canonicalizeRequestTarget
                Sample.canonicalizeHeader Sample.canonicalizeSignatureParams
                Sample.v 150 (Sample.expiring Sample.bad)) as [H _].
    exact (H _ _ Sample_CryptoChecked_bad).
  - destruct (C8_crypto_check_precedes_expiry_check
                Sample.parseSignatureInput Sample.canonicalizeRequestTarget
                Sample.canonicalizeHeader Sample.canonicalizeSignatureParams
                Sample.v 50 (Sample.expiring Sample.good)) as [_ H].
    apply H; [apply Sample_canonNever; discriminate|sample].
Defined.

(** C10 as stated fails: at a comma followed by two spaces the value is cut
    into two entries, the second of which begins with a space. *)
Lemma C10_comma_with_extra_spaces_is_cut :
  strings.Split "sig1=:AAAA:,  sig2=:BBBB:" ", "
    = ["sig1=:AAAA:"; " sig2=:BBBB:"].
Proof. sample. Qed.

Lemma C10_witness :
  (forall pre post, "sig1=:AAAA:,sig2=:BBBB:" <> pre ++ ", " ++ post) /\
  strings.Split "sig1=:AAAA:,sig2=:BBBB:" ", " = ["sig1=:AAAA:,sig2=:BBBB:"] /\
  strings.Split ("sig1=:AAAA:,sig2=:BBBB:" ++ ", " ++ "sig3=:CCCC:") ", "
    = ["sig1=:AAAA:,sig2=:BBBB:"; "sig3=:CCCC:"].
Proof.
  assert (H : forall pre post, "sig1=:AAAA:,sig2=:BBBB:" <> pre ++ ", " ++ post).
  { intros pre post E.
    pose proof (strings_facts.Index_present pre ", " post) as Hi.
    rewrite <- E in Hi. vm_compute in Hi. now apply Hi. }
  split; [exact H|].
  destruct (C10_split_at_comma_space _ "sig3=:CCCC:" H) as [H1 H2].
  split; [exact H1|]. rewrite H2. sample.
Defined.

(** * More about [Verify] *)

Section MoreVerifyFacts.

Context (parseSignatureInput : string -> option signatureParams.t)
        (canonicalizeRequestTarget : string -> url.URL -> error + list byte)
        (canonicalizeHeader : string -> gmap string (list string) -> error + list byte)
        (canonicalizeSignatureParams : signatureParams.t -> list byte).

Local Abbreviation Verify :=
  (Verify parseSignatureInput canonicalizeRequestTarget canonicalizeHeader
          canonicalizeSignatureParams).
Local Abbreviation checkEntry :=
  (checkEntry canonicalizeRequestTarget canonicalizeHeader
              canonicalizeSignatureParams).
Local Abbreviation checkSelected :=
  (checkSelected canonicalizeRequestTarget canonicalizeHeader
                 canonicalizeSignatureParams).
Local Abbreviation checkSignature :=
  (checkSignature canonicalizeRequestTarget canonicalizeHeader
                  canonicalizeSignatureParams).
Local Abbreviation canonicalize :=
  (canonicalize canonicalizeRequestTarget canonicalizeHeader).
Local Abbreviation canonicalizeItem :=
  (canonicalizeItem canonicalizeRequestTarget canonicalizeHeader).
Local Abbreviation selectParams := (selectParams parseSignatureInput).
Local Abbreviation parsesTo := (parsesTo parseSignatureInput).
Local Abbreviation KeyMatched := (KeyMatched parseSignatureInput).
Local Abbreviation SignatureFound := (SignatureFound parseSignatureInput).
Local Abbreviation CryptoChecked :=
  (CryptoChecked parseSignatureInput canonicalizeRequestTarget
                 canonicalizeHeader canonicalizeSignatureParams).

(** ** The canonicalisation loop *)

Lemma canonicalize_cons msg h rest b :
  canonicalize msg (h :: rest) b =
    match canonicalizeItem msg h with
    | inl err => inl err
    | inr out => canonicalize msg rest (b ++ out)%list
    end.
Proof.
  cbn [httpsig.canonicalize]. unfold canonicalizeItem, httpsig.canonicalizeItem.
  now destruct (String.eqb h "@request-target").
Qed.

(** X1.  The loop over the covered components succeeds exactly when every
    component canonicalises, and it then leaves in the buffer what was
    there, followed by the components' bytes in the order of the list. *)
Theorem X1_canonical_bytes_follow_the_item_order msg items b out :
  canonicalize msg items b = inr out <->
  exists outs,
    Forall2 (fun h o => canonicalizeItem msg h = inr o) items outs /\
    out = (b ++ concat outs)%list.
Proof.
  revert b. induction items as [|h rest IH]; intros b.
  - cbn [httpsig.canonicalize]. split.
    + intros [= <-]. exists []. split; [constructor|]. now rewrite app_nil_r.
    + intros (outs & H & ->). inversion H. cbn. now rewrite app_nil_r.
  - rewrite canonicalize_cons.
    destruct (canonicalizeItem msg h) as [e|o] eqn:Hh.
    + split; [discriminate|]. intros (outs & H & _).
      inversion H; subst. congruence.
    + rewrite IH. split.
      * intros (outs & H & ->). exists (o :: outs).
        split; [now constructor|]. cbn [concat]. now rewrite app_assoc.
      * intros (outs & H & ->). inversion H as [|? o' ? outs' Ho H']; subst.
        assert (o' = o) as -> by congruence.
        exists outs'. split; [assumption|]. cbn [concat]. now rewrite app_assoc.
Qed.

Lemma canonicalize_first_failure msg items b e :
  canonicalize msg items b = inl e <->
  exists pre h post,
    items = (pre ++ h :: post)%list /\
    Forall (fun h' => exists o, canonicalizeItem msg h' = inr o) pre /\
    canonicalizeItem msg h = inl e.
Proof.
  revert b. induction items as [|h rest IH]; intros b.
  - cbn [httpsig.canonicalize]. split; [discriminate|].
    intros (pre & h & post & H & _). now destruct pre.
  - rewrite canonicalize_cons.
    destruct (canonicalizeItem msg h) as [e'|o] eqn:Hh.
    + split.
      * intros [= ->]. exists [], h, rest. repeat split; [constructor|assumption].
      * intros (pre & h' & post & H & Hpre & He).
        destruct pre as [|p pre]; cbn in H; injection H as -> ->.
        -- congruence.
        -- apply Forall_cons in Hpre as [[o Ho] _]. congruence.
    + rewrite IH. split.
      * intros (pre & h' & post & -> & Hpre & He).
        exists (h :: pre), h', post. repeat split; [|assumption].
        constructor; eauto.
      * intros (pre & h' & post & H & Hpre & He).
        destruct pre as [|p pre]; cbn in H; injection H as -> ->.
        -- congruence.
        -- apply Forall_cons in Hpre as [_ Hpre].
           exists pre, h', post. auto.
Qed.

(** X2.  The loop stops at the first covered component that does not
    canonicalise and returns that component's error: it fails with [e]
    exactly when some component fails with [e] and all components listed
    before it canonicalise. *)
Theorem X2_canonicalisation_stops_at_first_failure msg items b e :
  canonicalize msg items b = inl e <->
  exists pre h post,
    items = (pre ++ h :: post)%list /\
    Forall (fun h' => exists o, canonicalizeItem msg h' = inr o) pre /\
    canonicalizeItem msg h = inl e.
Proof. apply canonicalize_first_failure. Qed.

(** ** What [Verify] returns *)

(** Either [Verify] returns one of four errors before any instance is made,
    or it ends as [checkSignature] does for the selected entry; which of
    the two, and with which entry, does not depend on the clock. *)
Lemma Verify_stages v msg :
  (exists e,
      In e [notSignedError; malformedSignatureError; unknownKeyError;
            algMismatchError] /\
      forall clock, Verify v clock msg = Return (Some e)) \/
  exists sigID params signature ver sig,
    SignatureFound v msg sigID params signature /\
    verifier.keys v !! signatureParams.keyID params = Some ver /\
    algMismatch ver params = false /\
    base64.DecodeString signature = Some sig /\
    forall clock, Verify v clock msg = checkSignature ver params sig clock msg.
Proof.
  destruct (String.eqb_spec (sigHdr msg) "") as [E1|E1].
  { left. exists notSignedError. split; [cbn; tauto|].
    intros clock. apply Verify_not_signed. auto. }
  destruct (String.eqb_spec (paramHdr msg) "") as [E2|E2].
  { left. exists notSignedError. split; [cbn; tauto|].
    intros clock. apply Verify_not_signed. auto. }
  destruct (Nat.eq_dec (List.length (sigParts msg)) (List.length (paramParts msg)))
    as [E3|E3].
  2: { left. exists malformedSignatureError. split; [cbn; tauto|].
       intros clock. now apply Verify_length_mismatch. }
  assert (HE : HeadersExtracted msg) by (repeat split; assumption).
  assert (Hx : forall clock, Verify v clock msg =
             match selectParams (verifier.keys v) (paramParts msg) with
             | SelError e => Return (Some e)
             | SelNone => Return (Some unknownKeyError)
             | SelFound sigID params =>
                 checkEntry v (sigParts msg) sigID params clock msg
             end)
    by (intros clock; now apply Verify_extracted).
  destruct (selectParams (verifier.keys v) (paramParts msg))
    as [e'| |sigID params] eqn:Hsel.
  { apply selectParams_error in Hsel as ->. left.
    exists malformedSignatureError. split; [cbn; tauto|assumption]. }
  { left. exists unknownKeyError. split; [cbn; tauto|assumption]. }
  destruct (selectParams_found _ _ _ _ _ Hsel) as [ver Hver].
  unfold checkEntry, httpsig.checkEntry in Hx.
  destruct (findSignature (sigParts msg) sigID) as [e'|signature] eqn:Hf.
  { apply findSignature_error in Hf as ->. left.
    exists malformedSignatureError. split; [cbn; tauto|assumption]. }
  destruct (String.eqb_spec signature "") as [E4|E4].
  { left. exists malformedSignatureError. split; [cbn; tauto|assumption]. }
  assert (HS : SignatureFound v msg sigID params signature)
    by (repeat split; assumption).
  unfold checkSelected, httpsig.checkSelected in Hx. rewrite Hver in Hx.
  simpl in Hx.
  destruct (algMismatch ver params) eqn:Ha.
  { left. exists algMismatchError. split; [cbn; tauto|assumption]. }
  destruct (base64.DecodeString signature) as [sig|] eqn:Hd.
  2: { left. exists malformedSignatureError. split; [cbn; tauto|assumption]. }
  right. exists sigID, params, signature, ver, sig. auto 10.
Qed.

Lemma Verify_cases v clock msg :
  Verify v clock msg = Return (Some notSignedError) \/
  Verify v clock msg = Return (Some malformedSignatureError) \/
  Verify v clock msg = Return (Some unknownKeyError) \/
  Verify v clock msg = Return (Some algMismatchError) \/
  exists sigID params signature ver sig,
    SignatureFound v msg sigID params signature /\
    verifier.keys v !! signatureParams.keyID params = Some ver /\
    algMismatch ver params = false /\
    base64.DecodeString signature = Some sig /\
    Verify v clock msg = checkSignature ver params sig clock msg.
Proof.
  destruct (Verify_stages v msg)
    as [(e & Hin & H)|(sigID & params & signature & ver & sig &
                       HS & Hver & Ha & Hd & H)].
  - rewrite H. cbn in Hin. intuition (subst; auto).
  - do 4 right. exists sigID, params, signature, ver, sig. auto 10.
Qed.

(** What an accepted message has gone through. *)
Lemma Verify_accepts_inv v clock msg :
  Verify v clock msg = Return None ->
  exists params,
    CryptoChecked v msg params None /\ expiryFails params clock = false.
Proof.
  intros H.
  destruct (Verify_cases v clock msg)
    as [E|[E|[E|[E|(sigID & params & signature & ver & sig &
                    HS & Hver & Ha & Hd & E)]]]];
    rewrite E in H; try discriminate.
  unfold checkSignature, httpsig.checkSignature in H.
  destruct (verHolder.verifier ver) as [new|] eqn:Hn; [|discriminate].
  destruct (canonicalize msg (signatureParams.items params) [])
    as [e'|b] eqn:Hcan; [discriminate|].
  destruct (verImpl.verify _ _ _) eqn:Hv; [discriminate|].
  destruct (expiryFails params clock) eqn:He; [discriminate|].
  exists params. split; [|assumption].
  exists sigID, signature, ver, sig, new, b. auto 10.
Qed.

(** X3.  [Verify] accepts a message only after the verifier instance of the
    selected key has accepted the decoded signature over the canonical
    bytes, and the expiry check has passed; and it accepts every such
    message. *)
Theorem X3_accepted_means_cryptographically_checked v clock msg :
  Verify v clock msg = Return None <->
  exists params,
    CryptoChecked v msg params None /\ expiryFails params clock = false.
Proof.
  split.
  - apply Verify_accepts_inv.
  - intros (params & HC & He).
    now rewrite (Verify_crypto_checked _ _ _ _ _ _ _ _ _ HC), He.
Qed.

(** Where an error of [Verify] comes from. *)
Lemma Verify_error_origin v clock msg e :
  Verify v clock msg = Return (Some e) ->
  In e [notSignedError; malformedSignatureError; unknownKeyError;
        algMismatchError; invalidSignatureError; signatureExpiredError] \/
  exists sigID params h,
    KeyMatched v msg sigID params /\
    In h (signatureParams.items params) /\
    canonicalizeItem msg h = inl e.
Proof.
  intros H.
  destruct (Verify_cases v clock msg)
    as [E|[E|[E|[E|(sigID & params & signature & ver & sig &
                    HS & Hver & Ha & Hd & E)]]]];
    rewrite E in H; try (injection H as <-; left; cbn; tauto).
  unfold checkSignature, httpsig.checkSignature in H.
  destruct (verHolder.verifier ver) as [new|]; [|discriminate].
  destruct (canonicalize msg (signatureParams.items params) [])
    as [e'|b] eqn:Hcan.
  - injection H as ->. right.
    apply canonicalize_first_failure in Hcan
      as (pre & h & post & Hitems & _ & He).
    exists sigID, params, h. split; [apply HS|]. split; [|assumption].
    rewrite Hitems. apply in_or_app. right. now left.
  - destruct (verImpl.verify _ _ _); [injection H as <-; left; cbn; tauto|].
    destruct (expiryFails params clock); [|discriminate].
    injection H as <-. left. cbn. tauto.
Qed.

(** X4.  Every error [Verify] returns is one of the six error values of
    verify.go, or it is the error a canonicaliser returned for a covered
    component of the selected entry, handed on as it is. *)
Theorem X4_errors_are_the_six_or_a_canonicaliser_s v clock msg e :
  Verify v clock msg = Return (Some e) ->
  In e [notSignedError; malformedSignatureError; unknownKeyError;
        algMismatchError; invalidSignatureError; signatureExpiredError] \/
  exists sigID params h,
    KeyMatched v msg sigID params /\
    In h (signatureParams.items params) /\
    canonicalizeItem msg h = inl e.
Proof. apply Verify_error_origin. Qed.

(** X5.  The lookup [v.keys[params.keyID]] that follows the loop never
    misses: the keyid of the entry the loop has selected is in the
    registry, so that [ver] is the holder registered under it and never
    the zero value of a missing key. *)
Theorem X5_lookup_after_the_loop_never_misses v msg sigID params :
  KeyMatched v msg sigID params ->
  exists ver,
    verifier.keys v !! signatureParams.keyID params = Some ver /\
    default verHolder.zero
      (verifier.keys v !! signatureParams.keyID params) = ver.
Proof.
  intros [_ Hsel]. destruct (selectParams_found _ _ _ _ _ Hsel) as [ver Hver].
  exists ver. now rewrite Hver.
Qed.

Lemma canonicalize_without_target msg msg' items b :
  message.Header msg = message.Header msg' ->
  ~ In "@request-target" items ->
  canonicalize msg items b = canonicalize msg' items b.
Proof.
  intros Hh. revert b. induction items as [|h rest IH]; intros b Hno.
  - reflexivity.
  - cbn [httpsig.canonicalize].
    destruct (String.eqb_spec h "@request-target") as [->|_].
    + exfalso. apply Hno. now left.
    + rewrite <- Hh. destruct (canonicalizeHeader h (message.Header msg));
        [reflexivity|]. apply IH. intros Hin. apply Hno. now right.
Qed.

(** X6.  The method and the URL of the message are read for the covered
    component [@request-target] only: when the selected entry does not
    list it, two messages with the same headers get the same outcome,
    whatever their methods and URLs. *)
Theorem X6_method_and_URL_matter_only_when_covered v clock msg msg' :
  message.Header msg = message.Header msg' ->
  (forall sigID params,
      selectParams (verifier.keys v) (paramParts msg) = SelFound sigID params ->
      ~ In "@request-target" (signatureParams.items params)) ->
  Verify v clock msg = Verify v clock msg'.
Proof.
  intros Hh Hno. unfold paramParts, paramHdr in Hno.
  unfold Verify, httpsig.Verify. rewrite <- Hh.
  destruct (String.eqb _ ""); [reflexivity|].
  destruct (String.eqb _ ""); [reflexivity|].
  destruct (negb _); [reflexivity|].
  destruct (selectParams _ _) as [| |sigID params] eqn:Hsel; try reflexivity.
  specialize (Hno _ _ eq_refl).
  unfold checkEntry, httpsig.checkEntry.
  destruct (findSignature _ _); [reflexivity|].
  destruct (String.eqb _ ""); [reflexivity|].
  unfold checkSelected, httpsig.checkSelected.
  destruct (algMismatch _ _); [reflexivity|].
  destruct (base64.DecodeString _); [|reflexivity].
  unfold checkSignature, httpsig.checkSignature.
  destruct (verHolder.verifier _); [|reflexivity].
  now rewrite (canonicalize_without_target msg msg' _ _ Hh Hno).
Qed.

(** ** [Verify] with each of the three algorithm verifiers *)

(** With everything up to the decoding done and the components
    canonicalised, [Verify] ends as the instance's [verify] decides, called
    on a sink that holds the canonical bytes and then the bytes of the
    signature parameters. *)
Lemma Verify_with_instance v clock msg sigID params signature ver sig new b :
  SignatureFound v msg sigID params signature ->
  verifier.keys v !! signatureParams.keyID params = Some ver ->
  algMismatch ver params = false ->
  base64.DecodeString signature = Some sig ->
  verHolder.verifier ver = Some new ->
  canonicalize msg (signatureParams.items params) [] = inr b ->
  Verify v clock msg =
    match verImpl.verify (new tt)
            (Write (Write (verImpl.w (new tt)) b)
                   (canonicalizeSignatureParams params)) sig with
    | Some _ => Return (Some invalidSignatureError)
    | None => if expiryFails params clock
              then Return (Some signatureExpiredError)
              else Return None
    end.
Proof.
  intros HS Hver Ha Hd Hn Hcan.
  apply (Verify_crypto_checked _ _ _ _ v clock msg params).
  exists sigID, signature, ver, sig, new, b. auto 10.
Qed.

Lemma algMismatch_own_label ver params :
  signatureParams.alg params = "" \/
  signatureParams.alg params = verHolder.alg ver ->
  algMismatch ver params = false.
Proof.
  unfold algMismatch. intros [->| ->].
  - cbn. now rewrite andb_false_r.
  - rewrite String.eqb_refl. cbn. now rewrite andb_false_r.
Qed.

(** X7.  With an HMAC-SHA256 key selected, [Verify] gets past the
    cryptographic check exactly when the decoded signature is the MAC, under
    the key's secret, of the canonical bytes of the covered components
    followed by the bytes of the signature parameters; any other signature
    yields InvalidSignature. *)
Theorem X7_hmac_key_checks_the_mac_of_the_canonical_bytes
    (hmac_sha256 : list byte -> list byte -> list byte) (secret : list byte)
    v clock msg sigID params signature sig b :
  SignatureFound v msg sigID params signature ->
  verifier.keys v !! signatureParams.keyID params
    = Some (verifyHmacSha256 hmac_sha256 secret) ->
  signatureParams.alg params = "" \/ signatureParams.alg params = "hmac-sha256" ->
  base64.DecodeString signature = Some sig ->
  canonicalize msg (signatureParams.items params) [] = inr b ->
  (sig = hmac_sha256 secret (b ++ canonicalizeSignatureParams params)%list ->
   Verify v clock msg = if expiryFails params clock
                        then Return (Some signatureExpiredError)
                        else Return None) /\
  (sig <> hmac_sha256 secret (b ++ canonicalizeSignatureParams params)%list ->
   Verify v clock msg = Return (Some invalidSignatureError)).
Proof.
  intros HS Hver Halg Hd Hcan.
  rewrite (Verify_with_instance _ _ _ _ _ _ _ _ _ _ HS Hver
             (algMismatch_own_label (verifyHmacSha256 hmac_sha256 secret) _ Halg) Hd eq_refl Hcan).
  cbn [verImpl.w verImpl.verify]. unfold Write. cbn [app].
  pose proof (subtle_facts.hmac_Equal_eq sig
                (hmac_sha256 secret (b ++ canonicalizeSignatureParams params)%list)) as H.
  destruct (hmac.Equal sig _); cbn [negb]; split; intros E.
  - reflexivity.
  - exfalso. apply E. now apply H.
  - apply H in E. discriminate.
  - reflexivity.
Qed.

(** X8.  With an RSA-PSS-SHA512 key selected, [Verify] hands to
    [rsa.VerifyPSS] the SHA-512 digest of the canonical bytes followed by
    the bytes of the signature parameters; whatever error [rsa.VerifyPSS]
    returns, [Verify] returns InvalidSignature in its place. *)
Theorem X8_rsa_key_checks_the_digest_of_the_canonical_bytes
    (rsa_PublicKey : Type) (sha512_Sum : list byte -> list byte)
    (rsa_VerifyPSS : rsa_PublicKey -> list byte -> list byte -> option error)
    (pk : rsa_PublicKey)
    v clock msg sigID params signature sig b :
  SignatureFound v msg sigID params signature ->
  verifier.keys v !! signatureParams.keyID params
    = Some (verifyRsaPssSha512 rsa_PublicKey sha512_Sum rsa_VerifyPSS pk) ->
  signatureParams.alg params = "" \/
  signatureParams.alg params = "rsa-pss-sha512" ->
  base64.DecodeString signature = Some sig ->
  canonicalize msg (signatureParams.items params) [] = inr b ->
  Verify v clock msg =
    match rsa_VerifyPSS pk
            (sha512_Sum (b ++ canonicalizeSignatureParams params)%list) sig with
    | Some _ => Return (Some invalidSignatureError)
    | None => if expiryFails params clock
              then Return (Some signatureExpiredError)
              else Return None
    end.
Proof.
  intros HS Hver Halg Hd Hcan.
  now rewrite (Verify_with_instance _ _ _ _ _ _ _ _ _ _ HS Hver
                 (algMismatch_own_label
                    (verifyRsaPssSha512 rsa_PublicKey sha512_Sum rsa_VerifyPSS pk)
                    _ Halg) Hd eq_refl Hcan).
Qed.

(** X9.  With an ECDSA-P256 key selected, [Verify] hands to
    [ecdsa.VerifyASN1] the SHA-256 digest of the canonical bytes followed
    by the bytes of the signature parameters, and returns InvalidSignature
    when that check answers false. *)
Theorem X9_ecdsa_key_checks_the_digest_of_the_canonical_bytes
    (ecdsa_PublicKey : Type) (sha256_Sum : list byte -> list byte)
    (ecdsa_VerifyASN1 : ecdsa_PublicKey -> list byte -> list byte -> bool)
    (pk : ecdsa_PublicKey)
    v clock msg sigID params signature sig b :
  SignatureFound v msg sigID params signature ->
  verifier.keys v !! signatureParams.keyID params
    = Some (verifyEccP256 ecdsa_PublicKey sha256_Sum ecdsa_VerifyASN1 pk) ->
  signatureParams.alg params = "" \/
  signatureParams.alg params = "ecdsa-p256-sha256" ->
  base64.DecodeString signature = Some sig ->
  canonicalize msg (signatureParams.items params) [] = inr b ->
  Verify v clock msg =
    if ecdsa_VerifyASN1 pk
         (sha256_Sum (b ++ canonicalizeSignatureParams params)%list) sig
    then if expiryFails params clock
         then Return (Some signatureExpiredError)
         else Return None
    else Return (Some invalidSignatureError).
Proof.
  intros HS Hver Halg Hd Hcan.
  rewrite (Verify_with_instance _ _ _ _ _ _ _ _ _ _ HS Hver
             (algMismatch_own_label
                (verifyEccP256 ecdsa_PublicKey sha256_Sum ecdsa_VerifyASN1 pk)
                _ Halg) Hd eq_refl Hcan).
  cbn [verImpl.w verImpl.verify]. unfold Write. cbn [app].
  now destruct (ecdsa_VerifyASN1 pk _ sig).
Qed.

(** X19.  A message that is accepted at one reading of the clock is
    accepted at every later reading: the expiry check turns away a
    signature only while the clock is still before [expires]. *)
Theorem X19_accepted_once_accepted_ever_after v clock clock' msg :
  Verify v clock msg = Return None -> clock <= clock' ->
  Verify v clock' msg = Return None.
Proof.
  intros H Hle. apply Verify_accepts_inv in H as (params & HC & He).
  rewrite (Verify_crypto_checked _ _ _ _ _ _ _ _ _ HC).
  unfold expiryFails, time.After in *.
  destruct (signatureParams.expires params) as [e|]; [|reflexivity].
  apply Z.ltb_ge in He.
  destruct (Z.ltb_spec clock' e); [lia|reflexivity].
Qed.

(** X20.  The clock is read at the expiry check and nowhere else: two
    readings of the clock give the same outcome unless the cryptographic
    check has succeeded and the expiry check tells them apart.  With
    [expires] unset in the checked entry the outcome does not depend on the
    clock at all. *)
Theorem X20_the_clock_matters_at_the_expiry_check_only v clock clock' msg :
  (forall params, CryptoChecked v msg params None ->
                  expiryFails params clock = expiryFails params clock') ->
  Verify v clock msg = Verify v clock' msg.
Proof.
  intros H.
  destruct (Verify_stages v msg)
    as [(e & _ & Hv)|(sigID & params & signature & ver & sig &
                      HS & Hver & Ha & Hd & Hv)].
  - now rewrite !Hv.
  - rewrite !Hv. unfold checkSignature, httpsig.checkSignature.
    destruct (verHolder.verifier ver) as [new|] eqn:Hn; [|reflexivity].
    destruct (canonicalize msg (signatureParams.items params) [])
      as [e'|b] eqn:Hcan; [reflexivity|].
    destruct (verImpl.verify _ _ _) eqn:Hr; [reflexivity|].
    rewrite (H params); [reflexivity|].
    exists sigID, signature, ver, sig, new, b. auto 10.
Qed.

End MoreVerifyFacts.

(** * More about the library models *)

Module strings_more.
Import strings strings_facts.

Lemma length_append (a b : string) :
  String.length (a ++ b) = (String.length a + String.length b)%nat.
Proof. induction a as [|c a IH]; [reflexivity|]. rewrite append_cons. cbn. lia. Qed.

Lemma append_assoc (a b c : string) : (a ++ b) ++ c = a ++ b ++ c.
Proof.
  induction a as [|d a IH]; [now rewrite !append_nil_l|].
  rewrite !append_cons. now rewrite IH.
Qed.

Lemma take_drop (n : nat) (s : string) : take n s ++ drop n s = s.
Proof.
  revert s; induction n as [|n IH]; intros [|c s]; cbn [take drop];
    rewrite ?append_nil_l, ?append_cons; try reflexivity.
  now rewrite IH.
Qed.

Lemma length_take (n : nat) (s : string) : (String.length (take n s) <= n)%nat.
Proof.
  revert s; induction n as [|n IH]; intros [|c s]; cbn; try lia.
  specialize (IH s). lia.
Qed.

(** A separator of one byte [c], in a string whose part before it has no
    [c]. *)
Lemma Index_byte_at (c : ascii) (a rest : string) :
  free_of (String c "") a = true ->
  Index (a ++ String c rest) (String c "") = len a.
Proof.
  unfold len. induction a as [|d a IH]; intros H.
  - rewrite append_nil_l. apply Index_prefix. cbn. now rewrite Ascii.eqb_refl.
  - cbn [free_of contains_byte] in H. rewrite orb_false_r in H.
    apply andb_true_iff in H as [Hd Ha]. apply negb_true_iff in Hd.
    rewrite append_cons. cbn [Index HasPrefix]. rewrite Hd, (IH Ha).
    cbn [String.length].
    destruct (Z.ltb_spec (Z.of_nat (String.length a)) 0); lia.
Qed.

Lemma Index_byte_absent (c : ascii) (a : string) :
  free_of (String c "") a = true -> Index a (String c "") = -1.
Proof.
  induction a as [|d a IH]; intros H; [reflexivity|].
  cbn [free_of contains_byte] in H. rewrite orb_false_r in H.
  apply andb_true_iff in H as [Hd Ha]. apply negb_true_iff in Hd.
  cbn [Index HasPrefix]. now rewrite Hd, (IH Ha).
Qed.

(** [SplitN(s, sep, 2)] cuts at the first instance of [sep], if any. *)
Lemma SplitN_2 (s sep : string) :
  sep <> "" ->
  SplitN s sep 2 =
    if Index s sep <? 0 then [s]
    else [slice_to s (Index s sep); slice_from s (Index s sep + len sep)].
Proof.
  intros Hsep. unfold SplitN, genSplit. cbn [Z.eqb Z.ltb Z.compare].
  destruct (String.eqb_spec sep ""); [contradiction|].
  destruct s as [|c s].
  - now rewrite (Index_empty _ Hsep).
  - unfold len. cbn [String.length].
    destruct (Z.gtb_spec 2 (Z.of_nat (S (String.length s)) + 1)); [lia|].
    reflexivity.
Qed.

Lemma TrimRight_free (cutset x : string) :
  free_of cutset x = true -> TrimRight x cutset = x.
Proof.
  induction x as [|c x IH]; intros H; [reflexivity|].
  cbn [free_of] in H. apply andb_true_iff in H as [Hc Hx].
  apply negb_true_iff in Hc. cbn [TrimRight]. rewrite (IH Hx), Hc.
  now destruct x.
Qed.

Lemma Trim_free (cutset x : string) :
  free_of cutset x = true -> Trim x cutset = x.
Proof.
  intros H. unfold Trim. rewrite (TrimRight_free _ _ H).
  destruct x as [|c x]; [reflexivity|].
  cbn [free_of] in H. apply andb_true_iff in H as [Hc _].
  apply negb_true_iff in Hc. cbn [TrimLeft]. now rewrite Hc.
Qed.

Lemma TrimRight_only (cutset x : string) :
  only_of cutset x = true -> TrimRight x cutset = "".
Proof.
  induction x as [|c x IH]; intros H; [reflexivity|].
  cbn [only_of] in H. apply andb_true_iff in H as [Hc Hx].
  cbn [TrimRight]. now rewrite (IH Hx), Hc.
Qed.

Lemma Trim_only (cutset x : string) :
  only_of cutset x = true -> Trim x cutset = "".
Proof. intros H. unfold Trim. now rewrite (TrimRight_only _ _ H). Qed.

Lemma Join_cons (e : string) (rest : list string) (sep : string) :
  rest <> [] -> Join (e :: rest) sep = e ++ sep ++ Join rest sep.
Proof. now destruct rest. Qed.

Lemma Join_Split_bounded (n : nat) :
  forall s sep, sep <> "" -> (String.length s <= n)%nat ->
                Join (Split s sep) sep = s.
Proof.
  induction n as [|n IH]; intros s sep Hsep Hlen;
    rewrite (Split_unfold _ _ Hsep).
  - destruct s; [|cbn in Hlen; lia]. now rewrite (Index_empty _ Hsep).
  - destruct (Z.ltb_spec (Index s sep) 0) as [Hi|Hi]; [reflexivity|].
    pose proof (len_pos _ Hsep) as Hp.
    pose proof (Split_length_pos (slice_from s (Index s sep + len sep)) sep Hsep)
      as Hl.
    rewrite Join_cons by (intros E; rewrite E in Hl; cbn in Hl; lia).
    rewrite IH; [symmetry; now apply Index_found|assumption|].
    unfold slice_from. rewrite length_drop. lia.
Qed.

(** The first instance of [sep] is where [Index] says: no instance starts
    before it. *)
Lemma Index_first (pre sep post : string) :
  Index (pre ++ sep ++ post) sep <= len pre.
Proof.
  unfold len. induction pre as [|c pre IH].
  - rewrite append_nil_l, Index_prefix by apply HasPrefix_append. cbn. lia.
  - rewrite append_cons. cbn [Index String.length].
    destruct (HasPrefix _ sep); [lia|].
    destruct (Z.ltb_spec (Index (pre ++ sep ++ post) sep) 0); lia.
Qed.

Lemma Index_before_first (s sep : string) :
  sep <> "" -> 0 <= Index s sep ->
  Index (slice_to s (Index s sep)) sep = -1.
Proof.
  intros Hsep Hm. set (m := Index s sep) in *.
  destruct (Index_range (slice_to s m) sep) as [|[Hi Hi']]; [assumption|].
  exfalso. set (t := slice_to s m) in *. set (i := Index t sep) in *.
  pose proof (Index_found t sep Hi) as Ht. fold i in Ht.
  pose proof (len_pos _ Hsep) as Hp.
  assert (Hs : s = slice_to t i ++ sep
                   ++ (slice_from t (i + len sep) ++ drop (Z.to_nat m) s)).
  { rewrite <- (take_drop (Z.to_nat m) s) at 1. fold (slice_to s m). fold t.
    rewrite Ht at 1. now rewrite !append_assoc. }
  pose proof (Index_first (slice_to t i) sep
                (slice_from t (i + len sep) ++ drop (Z.to_nat m) s)) as Hf.
  rewrite <- Hs in Hf. fold m in Hf.
  assert (Hlt : (String.length t <= Z.to_nat m)%nat) by apply length_take.
  assert (Hti : (String.length (slice_to t i) <= Z.to_nat i)%nat)
    by apply length_take.
  apply (f_equal String.length) in Ht. rewrite !length_append in Ht.
  unfold len in *. lia.
Qed.

Lemma Split_parts_bounded (n : nat) :
  forall s sep, sep <> "" -> (String.length s <= n)%nat ->
                Forall (fun p => Index p sep = -1) (Split s sep).
Proof.
  induction n as [|n IH]; intros s sep Hsep Hlen;
    rewrite (Split_unfold _ _ Hsep).
  - destruct s; [|cbn in Hlen; lia]. rewrite (Index_empty _ Hsep).
    repeat constructor. now apply Index_empty.
  - destruct (Z.ltb_spec (Index s sep) 0) as [Hi|Hi].
    + repeat constructor. destruct (Index_range s sep); lia.
    + pose proof (len_pos _ Hsep) as Hp. constructor.
      * now apply Index_before_first.
      * apply IH; [assumption|]. unfold slice_from. rewrite length_drop. lia.
Qed.

End strings_more.

Module base64_facts.
Import base64.

Lemma skip_newlines_keeps (s : string) (c : ascii) :
  strings.contains_byte s c = true -> is_newline c = false ->
  strings.contains_byte (skip_newlines s) c = true.
Proof.
  intros Hc Hn. induction s as [|d s IH]; [assumption|].
  cbn [skip_newlines]. destruct (is_newline d) eqn:Hd; [|assumption].
  cbn [strings.contains_byte] in Hc.
  destruct (Ascii.eqb_spec c d) as [E|_]; [congruence|]. now apply IH.
Qed.

(** A byte that is neither of the alphabet, nor a line end, nor the padding
    byte makes the decoder fail, wherever it stands. *)
Lemma decode_foreign_byte (c : ascii) :
  decodeMap c = None -> is_newline c = false -> c <> padChar ->
  forall src dbuf dst,
    strings.contains_byte src c = true -> decode src dbuf dst = None.
Proof.
  intros Hm Hn Hp. induction src as [|d src IH]; intros dbuf dst Hc;
    [discriminate|].
  cbn [strings.contains_byte] in Hc. cbn [decode].
  destruct (Ascii.eqb_spec c d) as [<-|_].
  - rewrite Hm, Hn. apply Ascii.eqb_neq in Hp. now rewrite Hp.
  - cbn [orb] in Hc. destruct (decodeMap d).
    + destruct (Nat.eqb _ 4); now apply IH.
    + destruct (is_newline d); [now apply IH|].
      destruct (Ascii.eqb d padChar); [|reflexivity]. cbn [negb].
      pose proof (skip_newlines_keeps _ _ Hc Hn) as Hs.
      destruct (List.length dbuf) as [|[|[|[|]]]]; try reflexivity.
      * destruct (skip_newlines src) as [|c2 rest]; [reflexivity|].
        cbn [strings.contains_byte] in Hs.
        destruct (Ascii.eqb_spec c2 padChar) as [->|_]; [|reflexivity].
        apply Ascii.eqb_neq in Hp. rewrite Hp in Hs. cbn [orb] in Hs.
        pose proof (skip_newlines_keeps _ _ Hs Hn) as Hs'.
        now destruct (skip_newlines rest).
      * now destruct (skip_newlines src).
Qed.

End base64_facts.

(** X10.  An entry is cut into id and value at its first [=]: when the id
    has no [=], the value is everything after the first one, further [=]
    (such as base64 padding) included; a text with no [=] at all stays in
    one piece. *)
Theorem X10_SplitN_cuts_at_the_first_equals_sign (id value : string) :
  strings.free_of "=" id = true ->
  strings.SplitN (id ++ "=" ++ value) "=" 2 = [id; value] /\
  strings.SplitN id "=" 2 = [id].
Proof.
  intros H. rewrite !strings_more.SplitN_2 by discriminate.
  change (id ++ "=" ++ value) with (id ++ String "=" value).
  rewrite (strings_more.Index_byte_at _ _ _ H),
          (strings_more.Index_byte_absent _ _ H).
  unfold strings.len, strings.slice_to, strings.slice_from. split; [|reflexivity].
  destruct (Z.ltb_spec (Z.of_nat (String.length id)) 0); [lia|].
  rewrite Nat2Z.id, strings_facts.take_append.
  replace (Z.to_nat (Z.of_nat (String.length id) + Z.of_nat (String.length "=")))
    with (String.length id + 1)%nat by (cbn [String.length]; lia).
  now rewrite strings_facts.drop_append_add.
Qed.

(** X11.  The colons around a signature value are optional: for a value
    without colons, the same signature text is found whether the entry
    gives it between colons or bare. *)
Theorem X11_colons_around_the_value_are_optional
    (sigID x : string) (rest : list string) :
  strings.free_of "=" sigID = true -> strings.free_of ":" x = true ->
  findSignature ((sigID ++ "=" ++ ":" ++ x ++ ":") :: rest) sigID = inr x /\
  findSignature ((sigID ++ "=" ++ x) :: rest) sigID = inr x.
Proof.
  intros Hid Hx. cbn [findSignature].
  assert (HS : forall value,
             strings.SplitN (sigID ++ "=" ++ value) "=" 2 = [sigID; value]).
  { intros value. rewrite strings_more.SplitN_2 by discriminate.
    change (sigID ++ "=" ++ value) with (sigID ++ String "=" value).
    rewrite (strings_more.Index_byte_at _ _ _ Hid).
    unfold strings.len, strings.slice_to, strings.slice_from.
    destruct (Z.ltb_spec (Z.of_nat (String.length sigID)) 0); [lia|].
    rewrite Nat2Z.id, strings_facts.take_append.
    replace (Z.to_nat (Z.of_nat (String.length sigID)
                       + Z.of_nat (String.length "=")))
      with (String.length sigID + 1)%nat by (cbn [String.length]; lia).
    now rewrite strings_facts.drop_append_add. }
  rewrite !HS, String.eqb_refl. split.
  - change (":" ++ x ++ ":") with (String ":" (x ++ String ":" "")).
    now rewrite (strings_facts.Trim_delimited ":" ":" x).
  - now rewrite (strings_more.Trim_free _ _ Hx).
Qed.

(** X14.  Cutting at a separator loses nothing: the parts of
    [strings.Split], joined with the separator again, give the text that
    was cut. *)
Theorem X14_joining_the_parts_gives_back_the_text (s sep : string) :
  sep <> "" -> strings.Join (strings.Split s sep) sep = s.
Proof. intros H. now apply (strings_more.Join_Split_bounded (String.length s)). Qed.

(** X15.  No part that [strings.Split] returns contains the separator, and
    there is always at least one part. *)
Theorem X15_parts_are_free_of_the_separator (s sep : string) :
  sep <> "" ->
  Forall (fun p => strings.Index p sep = -1) (strings.Split s sep) /\
  (1 <= List.length (strings.Split s sep))%nat.
Proof.
  intros H. split.
  - now apply (strings_more.Split_parts_bounded (String.length s)).
  - now apply strings_facts.Split_length_pos.
Qed.

Section VerifyEdges.

Context (parseSignatureInput : string -> option signatureParams.t)
        (canonicalizeRequestTarget : string -> url.URL -> error + list byte)
        (canonicalizeHeader : string -> gmap string (list string) -> error + list byte)
        (canonicalizeSignatureParams : signatureParams.t -> list byte).

Local Abbreviation Verify :=
  (Verify parseSignatureInput canonicalizeRequestTarget canonicalizeHeader
          canonicalizeSignatureParams).
Local Abbreviation selectParams := (selectParams parseSignatureInput).
Local Abbreviation KeyMatched := (KeyMatched parseSignatureInput).
Local Abbreviation SignatureFound := (SignatureFound parseSignatureInput).
Local Abbreviation CryptoChecked :=
  (CryptoChecked parseSignatureInput canonicalizeRequestTarget
                 canonicalizeHeader canonicalizeSignatureParams).
Local Abbreviation canonNever :=
  (canonNever canonicalizeRequestTarget canonicalizeHeader).

(** X12.  An entry of the Signature header that has no [=], met before the
    entry of the selected id, makes [Verify] return MalformedSignature,
    whatever comes after it. *)
Theorem X12_signature_entry_without_equals_sign
    v clock msg sigID params pre s post :
  KeyMatched v msg sigID params ->
  sigParts msg = (pre ++ s :: post)%list ->
  Forall (fun s' => exists id value,
              strings.SplitN s' "=" 2 = [id; value] /\ id <> sigID) pre ->
  strings.free_of "=" s = true ->
  Verify v clock msg = Return (Some malformedSignatureError).
Proof.
  intros HK Hparts Hpre Hs.
  rewrite (Verify_key_matched _ _ _ _ _ _ _ _ _ HK).
  unfold checkEntry. rewrite Hparts, (findSignature_skip _ _ _ Hpre).
  cbn [findSignature].
  rewrite strings_more.SplitN_2 by discriminate.
  now rewrite (strings_more.Index_byte_absent _ _ Hs).
Qed.

(** X13.  When the value given for the selected id is made of colons only
    (or is empty), nothing is left of it and [Verify] returns
    MalformedSignature, before the algorithm labels are compared. *)
Theorem X13_value_of_colons_only_is_malformed
    v clock msg sigID params pre s post value :
  KeyMatched v msg sigID params ->
  sigParts msg = (pre ++ s :: post)%list ->
  Forall (fun s' => exists id value',
              strings.SplitN s' "=" 2 = [id; value'] /\ id <> sigID) pre ->
  strings.SplitN s "=" 2 = [sigID; value] ->
  strings.only_of ":" value = true ->
  Verify v clock msg = Return (Some malformedSignatureError).
Proof.
  intros HK Hparts Hpre Hs Hv.
  rewrite (Verify_key_matched _ _ _ _ _ _ _ _ _ HK).
  unfold checkEntry. rewrite Hparts, (findSignature_skip _ _ _ Hpre).
  cbn [findSignature].
  now rewrite Hs, String.eqb_refl, (strings_more.Trim_only _ _ Hv).
Qed.

(** X16.  A signature text with a byte that is neither of the base64
    alphabet, nor a line end, nor [=] is not decoded: the algorithm labels
    not mismatching, [Verify] returns MalformedSignature. *)
Theorem X16_foreign_byte_in_the_signature_text
    v clock msg sigID params signature ver c :
  SignatureFound v msg sigID params signature ->
  verifier.keys v !! signatureParams.keyID params = Some ver ->
  algMismatch ver params = false ->
  strings.contains_byte signature c = true ->
  base64.decodeMap c = None -> base64.is_newline c = false ->
  c <> base64.padChar ->
  Verify v clock msg = Return (Some malformedSignatureError).
Proof.
  intros HS Hver Ha Hc Hm Hn Hp.
  rewrite (Verify_signature_found _ _ _ _ _ _ _ _ _ _ HS).
  unfold checkSelected. rewrite Hver. simpl. rewrite Ha.
  unfold base64.DecodeString.
  now rewrite (base64_facts.decode_foreign_byte c Hm Hn Hp signature [] [] Hc).
Qed.

Lemma Get_noValue h key : http.noValue h key -> http.Get h key = "".
Proof.
  unfold http.Get, http.noValue. intros [-> | [-> | [vs ->]]]; reflexivity.
Qed.

(** X17.  A Signature or Signature-Input header that is missing, has no
    value, or has an empty first value counts as absent: [Verify] returns
    NotSigned. *)
Theorem X17_empty_header_counts_as_absent v clock msg :
  http.noValue (message.Header msg) "Signature" \/
  http.noValue (message.Header msg) "Signature-Input" ->
  Verify v clock msg = Return (Some notSignedError).
Proof.
  intros H. apply Verify_not_signed. unfold sigHdr, paramHdr.
  destruct H as [H|H]; [left|right]; now apply Get_noValue.
Qed.

Local Abbreviation canonNeverIs :=
  (canonNeverIs canonicalizeRequestTarget canonicalizeHeader).
Local Abbreviation canonicalizeItem :=
  (canonicalizeItem canonicalizeRequestTarget canonicalizeHeader).

Lemma error_Is_refl e : error_Is e e = true.
Proof. destruct e; cbn; now rewrite bool_decide_eq_true_2. Qed.

(** An error value of verify.go wraps nothing: [errors.Is] takes it for
    itself only. *)
Lemma error_Is_sentinel e target :
  In e [notSignedError; malformedSignatureError; unknownKeyError;
        algMismatchError; invalidSignatureError; signatureExpiredError] ->
  error_Is e target = true -> e = target.
Proof.
  intros Hin H. cbn in Hin.
  assert (Hb : bool_decide (e = target) = true)
    by (destruct Hin as [<-|[<-|[<-|[<-|[<-|[<-|[]]]]]]];
        cbn in H; now rewrite orb_false_r in H).
  now apply bool_decide_eq_true in Hb.
Qed.

Lemma canonNeverIs_canonNever target : canonNeverIs target -> canonNever target.
Proof.
  intros [H1 H2]. split.
  - intros method u E. specialize (H1 _ _ _ E).
    now rewrite error_Is_refl in H1.
  - intros name hdr E. specialize (H2 _ _ _ E).
    now rewrite error_Is_refl in H2.
Qed.

Lemma canonNeverIs_item target msg h e :
  canonNeverIs target -> canonicalizeItem msg h = inl e ->
  error_Is e target = false.
Proof.
  intros [H1 H2]. unfold canonicalizeItem, httpsig.canonicalizeItem.
  destruct (String.eqb h "@request-target"); eauto.
Qed.

(** An error of [Verify] that [errors.Is] takes for [target] is [target]
    itself, when no canonicaliser returns such an error. *)
Lemma Verify_error_Is v clock msg e target :
  canonNeverIs target ->
  Verify v clock msg = Return (Some e) -> error_Is e target = true ->
  e = target.
Proof.
  intros Hc H Hi.
  destruct (Verify_error_origin _ _ _ _ _ _ _ _ H)
    as [Hin|(sigID & params & h & _ & _ & Hh)].
  - now apply error_Is_sentinel.
  - rewrite (canonNeverIs_item _ _ _ _ Hc Hh) in Hi. discriminate.
Qed.

(** X18.  What two of the kinds tell about a result of [Verify]:
    [IsUnknownKeyError] holds exactly when both headers were there with
    lists of equal length and the loop over Signature-Input ended without
    an error and without a registered key; [IsInvalidSignatureError] holds
    exactly when the instance's [verify] was reached and failed.  (For
    "only then", no canonicaliser may return an error that [errors.Is]
    takes for UnknownKey, or for InvalidSignature: such an error, one that
    wraps them included, is handed on by [Verify] as it is.) *)
Theorem X18_what_UnknownKey_and_InvalidSignature_tell v clock msg err :
  Verify v clock msg = Return err ->
  (HeadersExtracted msg /\
   selectParams (verifier.keys v) (paramParts msg) = SelNone ->
   IsUnknownKeyError err = true) /\
  (canonNeverIs unknownKeyError -> IsUnknownKeyError err = true ->
   HeadersExtracted msg /\
   selectParams (verifier.keys v) (paramParts msg) = SelNone) /\
  ((exists params r, CryptoChecked v msg params (Some r)) ->
   IsInvalidSignatureError err = true) /\
  (canonNeverIs invalidSignatureError -> IsInvalidSignatureError err = true ->
   exists params r, CryptoChecked v msg params (Some r)).
Proof.
  intros H.
  assert (Hk : forall target,
             canonNeverIs target -> errors_Is err target = true ->
             Verify v clock msg = Return (Some target)).
  { intros target Hc Hi. destruct err as [e|]; [|discriminate]. cbn in Hi.
    now rewrite <- (Verify_error_Is _ _ _ _ _ Hc H Hi). }
  split; [|split; [|split]].
  - intros [HE Hsel]. rewrite Verify_extracted, Hsel in H by assumption.
    injection H as <-. reflexivity.
  - intros Hc Hi. specialize (Hk _ Hc Hi).
    apply Verify_error_inv in Hk; [|now apply canonNeverIs_canonNever].
    repeat (destruct Hk as [Hk|Hk]); try discriminate;
      destruct Hk as [H1 H2]; try discriminate. assumption.
  - intros (params & r & HC).
    rewrite (Verify_crypto_checked _ _ _ _ _ _ _ _ _ HC) in H.
    injection H as <-. reflexivity.
  - intros Hc Hi. specialize (Hk _ Hc Hi).
    apply Verify_error_inv in Hk; [|now apply canonNeverIs_canonNever].
    repeat (destruct Hk as [Hk|Hk]); try discriminate;
      destruct Hk as [H1 H2]; try discriminate. assumption.
Qed.

End VerifyEdges.

(** * The further properties on the sample instance *)

Lemma X4_witness :
  httpsig.Verify Sample.parseSignatureInput Sample.canonicalizeRequestTarget
    Sample.failingHeader Sample.canonicalizeSignatureParams
    Sample.v 0 Sample.signed = Return (Some (otherError "header not found")) /\
  exists sigID params h,
    KeyMatched Sample.parseSignatureInput Sample.v Sample.signed sigID params /\
    In h (signatureParams.items params) /\
    canonicalizeItem Sample.canonicalizeRequestTarget Sample.failingHeader
      Sample.signed h = inl (otherError "header not found").
Proof.
  assert (Hv : httpsig.Verify Sample.parseSignatureInput
                 Sample.canonicalizeRequestTarget Sample.failingHeader
                 Sample.canonicalizeSignatureParams Sample.v 0 Sample.signed
               = Return (Some (otherError "header not found"))) by sample.
  split; [exact Hv|].
  destruct (X4_errors_are_the_six_or_a_canonicaliser_s _ _ _ _ _ _ _ _ Hv)
    as [Hin|H]; [|exact H].
  exfalso. cbn in Hin. intuition discriminate.
Defined.

Lemma X5_witness :
  exists ver,
    verifier.keys Sample.v !! "key1" = Some ver /\
    default verHolder.zero (verifier.keys Sample.v !! "key1") = ver.
Proof.
  apply (X5_lookup_after_the_loop_never_misses
           Sample.parseSignatureInput Sample.v Sample.signed
           "sig1" (Sample.params "key1" "" None)).
  matched.
Defined.

Lemma X6_witness :
  message.Header Sample.signed = message.Header Sample.posted /\
  Sample.Verify Sample.v 0 Sample.signed = Sample.Verify Sample.v 0 Sample.posted.
Proof.
  split; [reflexivity|].
  apply (X6_method_and_URL_matter_only_when_covered
           Sample.parseSignatureInput Sample.canonicalizeRequestTarget
           Sample.canonicalizeHeader Sample.canonicalizeSignatureParams
           Sample.v 0 Sample.signed Sample.posted eq_refl).
  intros sigID params H. vm_compute in H. injection H as <- <-.
  cbn. intros [E|[]]. discriminate.
Defined.

Lemma Sample_SignatureFound_signed (v : verifier.t) :
  verifier.keys v !! "key1" <> None ->
  SignatureFound Sample.parseSignatureInput v Sample.signed
    "sig1" (Sample.params "key1" "" None) Sample.good.
Proof.
  intros Hk. split; [split; [extracted|]|split; sample].
  parts. cbn [selectParams].
  replace (strings.SplitN "sig1=(Date);keyid=key1" "=" 2)
    with ["sig1"; "(Date);keyid=key1"] by sample.
  replace (Sample.parseSignatureInput "(Date);keyid=key1")
    with (Some (Sample.params "key1" "" None)) by sample.
  cbn [Sample.params signatureParams.keyID].
  now destruct (verifier.keys v !! "key1").
Qed.

Lemma X7_witness :
  Sample.Verify Sample.v 0 Sample.signed = Return None.
Proof.
  destruct (X7_hmac_key_checks_the_mac_of_the_canonical_bytes
              Sample.parseSignatureInput Sample.canonicalizeRequestTarget
              Sample.canonicalizeHeader Sample.canonicalizeSignatureParams
              Sample.mac (Sample.bytes "s") Sample.v 0 Sample.signed
              "sig1" (Sample.params "key1" "" None) Sample.good
              (Sample.bytes "sDate: X;keyid=key1") (Sample.bytes "Date: X"))
    as [H _].
  - apply Sample_SignatureFound_signed. discriminate.
  - reflexivity.
  - left. reflexivity.
  - sample.
  - sample.
  - unfold Sample.Verify. rewrite H; sample.
Defined.

Lemma X8_witness :
  Sample.Verify Sample.vRsa 0 Sample.signed = Return None.
Proof.
  unfold Sample.Verify.
  rewrite (X8_rsa_key_checks_the_digest_of_the_canonical_bytes
             Sample.parseSignatureInput Sample.canonicalizeRequestTarget
             Sample.canonicalizeHeader Sample.canonicalizeSignatureParams
             (list byte) Sample.digest Sample.rsaVerify (Sample.bytes "s")
             Sample.vRsa 0 Sample.signed
             "sig1" (Sample.params "key1" "" None) Sample.good
             (Sample.bytes "sDate: X;keyid=key1") (Sample.bytes "Date: X")).
  - sample.
  - apply Sample_SignatureFound_signed. discriminate.
  - reflexivity.
  - left. reflexivity.
  - sample.
  - sample.
Defined.

Lemma X9_witness :
  Sample.Verify Sample.vEcdsa 0 Sample.signed = Return None.
Proof.
  unfold Sample.Verify.
  rewrite (X9_ecdsa_key_checks_the_digest_of_the_canonical_bytes
             Sample.parseSignatureInput Sample.canonicalizeRequestTarget
             Sample.canonicalizeHeader Sample.canonicalizeSignatureParams
             (list byte) Sample.digest Sample.ecdsaVerify (Sample.bytes "s")
             Sample.vEcdsa 0 Sample.signed
             "sig1" (Sample.params "key1" "" None) Sample.good
             (Sample.bytes "sDate: X;keyid=key1") (Sample.bytes "Date: X")).
  - sample.
  - apply Sample_SignatureFound_signed. discriminate.
  - reflexivity.
  - left. reflexivity.
  - sample.
  - sample.
Defined.

Lemma X10_witness :
  strings.SplitN ("sig1" ++ "=" ++ ":YQ==:") "=" 2 = ["sig1"; ":YQ==:"] /\
  strings.SplitN "sig1" "=" 2 = ["sig1"].
Proof. apply (X10_SplitN_cuts_at_the_first_equals_sign "sig1" ":YQ==:"). reflexivity. Defined.

Lemma X11_witness :
  findSignature ["sig1" ++ "=" ++ ":" ++ "YQ==" ++ ":"] "sig1" = inr "YQ==" /\
  findSignature ["sig1" ++ "=" ++ "YQ=="] "sig1" = inr "YQ==".
Proof.
  apply (X11_colons_around_the_value_are_optional "sig1" "YQ==" []); reflexivity.
Defined.

Lemma Sample_KeyMatched_noEquals :
  KeyMatched Sample.parseSignatureInput Sample.v Sample.noEquals
    "sig1" (Sample.params "key1" "" None).
Proof. matched. Qed.

Lemma X12_witness :
  Sample.Verify Sample.v 0 Sample.noEquals = Return (Some malformedSignatureError).
Proof.
  apply (X12_signature_entry_without_equals_sign
           Sample.parseSignatureInput Sample.canonicalizeRequestTarget
           Sample.canonicalizeHeader Sample.canonicalizeSignatureParams
           Sample.v 0 Sample.noEquals "sig1" (Sample.params "key1" "" None)
           [] "garbage" ["sig1=:" ++ Sample.good ++ ":"]
           Sample_KeyMatched_noEquals);
    [sample|constructor|reflexivity].
Defined.

Lemma Sample_KeyMatched_onlyColons :
  KeyMatched Sample.parseSignatureInput Sample.v Sample.onlyColons
    "sig1" (Sample.params "key1" "rsa-pss-sha512" None).
Proof. matched. Qed.

Lemma X13_witness :
  algMismatch Sample.holder (Sample.params "key1" "rsa-pss-sha512" None) = true /\
  Sample.Verify Sample.v 0 Sample.onlyColons
    = Return (Some malformedSignatureError).
Proof.
  split; [sample|].
  apply (X13_value_of_colons_only_is_malformed
           Sample.parseSignatureInput Sample.canonicalizeRequestTarget
           Sample.canonicalizeHeader Sample.canonicalizeSignatureParams
           Sample.v 0 Sample.onlyColons
           "sig1" (Sample.params "key1" "rsa-pss-sha512" None)
           [] "sig1=:::" [] ":::" Sample_KeyMatched_onlyColons);
    [sample|constructor|sample|reflexivity].
Defined.

Lemma X14_witness :
  strings.Join (strings.Split "sig1=:AAAA:, sig2=:BBBB:" ", ") ", "
    = "sig1=:AAAA:, sig2=:BBBB:".
Proof.
  apply (X14_joining_the_parts_gives_back_the_text
           "sig1=:AAAA:, sig2=:BBBB:" ", ").
  discriminate.
Defined.

Lemma X15_witness :
  Forall (fun p => strings.Index p ", " = -1)
         (strings.Split "sig1=:AAAA:, sig2=:BBBB:" ", ") /\
  (1 <= List.length (strings.Split "sig1=:AAAA:, sig2=:BBBB:" ", "))%nat.
Proof.
  apply (X15_parts_are_free_of_the_separator "sig1=:AAAA:, sig2=:BBBB:" ", ").
  discriminate.
Defined.

Lemma Sample_SignatureFound_notBase64 :
  SignatureFound Sample.parseSignatureInput Sample.v Sample.notBase64
    "sig1" (Sample.params "key1" "" None) "!!!".
Proof. found. Qed.

Lemma X16_witness :
  Sample.Verify Sample.v 0 Sample.notBase64
    = Return (Some malformedSignatureError).
Proof.
  apply (X16_foreign_byte_in_the_signature_text
           Sample.parseSignatureInput Sample.canonicalizeRequestTarget
           Sample.canonicalizeHeader Sample.canonicalizeSignatureParams
           Sample.v 0 Sample.notBase64 "sig1" (Sample.params "key1" "" None)
           "!!!" Sample.holder "!"%char Sample_SignatureFound_notBase64);
    [reflexivity|sample|reflexivity|reflexivity|reflexivity|discriminate].
Defined.

Lemma X17_witness :
  message.Header Sample.emptySignature !! "Signature" = Some [""] /\
  Sample.Verify Sample.v 0 Sample.emptySignature = Return (Some notSignedError).
Proof.
  assert (H : message.Header Sample.emptySignature !! "Signature" = Some [""])
    by sample.
  split; [exact H|].
  apply (X17_empty_header_counts_as_absent
           Sample.parseSignatureInput Sample.canonicalizeRequestTarget
           Sample.canonicalizeHeader Sample.canonicalizeSignatureParams
           Sample.v 0 Sample.emptySignature).
  left. right. right. exists []. exact H.
Defined.

Lemma Sample_canonNeverIs (target : error) :
  target <> malformedSignatureError ->
  canonNeverIs Sample.canonicalizeRequestTarget Sample.canonicalizeHeader target.
Proof.
  intros Ht.
  assert (H : error_Is malformedSignatureError target = false).
  { cbn. rewrite orb_false_r. apply bool_decide_eq_false. congruence. }
  split.
  - intros method u e. discriminate.
  - intros name hdr e. unfold Sample.canonicalizeHeader.
    repeat case_match; intros [= <-]; exact H.
Qed.

Lemma X18_witness :
  Sample.Verify Sample.v 0 Sample.unregisteredOnly
    = Return (Some unknownKeyError) /\
  HeadersExtracted Sample.unregisteredOnly /\
  selectParams Sample.parseSignatureInput (verifier.keys Sample.v)
    (paramParts Sample.unregisteredOnly) = SelNone.
Proof.
  assert (Hv : Sample.Verify Sample.v 0 Sample.unregisteredOnly
               = Return (Some unknownKeyError)) by sample.
  split; [exact Hv|].
  destruct (X18_what_UnknownKey_and_InvalidSignature_tell
              Sample.parseSignatureInput Sample.canonicalizeRequestTarget
              Sample.canonicalizeHeader Sample.canonicalizeSignatureParams
              Sample.v 0 Sample.unregisteredOnly _ Hv) as (_ & H & _).
  apply H; [apply Sample_canonNeverIs; discriminate|reflexivity].
Defined.

Lemma X19_witness :
  Sample.Verify Sample.v 150 (Sample.expiring Sample.good) = Return None /\
  Sample.Verify Sample.v 1000 (Sample.expiring Sample.good) = Return None.
Proof.
  assert (H : Sample.Verify Sample.v 150 (Sample.expiring Sample.good)
              = Return None) by sample.
  split; [exact H|].
  apply (X19_accepted_once_accepted_ever_after
           Sample.parseSignatureInput Sample.canonicalizeRequestTarget
           Sample.canonicalizeHeader Sample.canonicalizeSignatureParams
           Sample.v 150 1000 (Sample.expiring Sample.good) H).
  lia.
Defined.

Lemma X20_witness :
  Sample.Verify Sample.v 0 Sample.signed = Sample.Verify Sample.v 1000 Sample.signed.
Proof.
  apply (X20_the_clock_matters_at_the_expiry_check_only
           Sample.parseSignatureInput Sample.canonicalizeRequestTarget
           Sample.canonicalizeHeader Sample.canonicalizeSignatureParams
           Sample.v 0 1000 Sample.signed).
  intros params (sigID & signature & ver & sig & new & b &
                 ((_ & Hsel) & _) & _).
  vm_compute in Hsel. injection Hsel as _ <-. reflexivity.
Defined.

(** C6 as stated fails: the labels of the matched entry are both non-empty
    and differ, but the value given for the entry's id is made of colons
    only, and [Verify] returns MalformedSignature: the signature text is
    tested for emptiness before the labels are compared. *)
Lemma C6_empty_signature_text_comes_first :
  KeyMatched Sample.parseSignatureInput Sample.v Sample.onlyColons
    "sig1" (Sample.params "key1" "rsa-pss-sha512" None) /\
  verifier.keys Sample.v !! "key1" = Some Sample.holder /\
  verHolder.alg Sample.holder = "hmac-sha256" /\
  signatureParams.alg (Sample.params "key1" "rsa-pss-sha512" None)
    = "rsa-pss-sha512" /\
  Sample.Verify Sample.v 0 Sample.onlyColons
    = Return (Some malformedSignatureError).
Proof.
  split; [matched|]. split; [reflexivity|]. split; [reflexivity|].
  split; [reflexivity|sample].
Qed.
